(** * PDF ingestion admin (admin/admin.py): chunking, index build, publication

    A shallow embedding of [admin/admin.py].  The script is a thin driver
    around three collaborators: the text splitter of the langchain library,
    the FAISS vector store / Bedrock embedding client, and the S3 client.
    The splitter is a pure algorithm and is embedded as such (module
    [langchain]); the remaining collaborators are effectful and are
    represented by an environment of oracles ([Env]) together with an
    explicit world state ([World]) that is threaded through the script. *)

From Stdlib Require Import ZArith String Ascii List Lia Bool.
From stdpp Require Import base option list gmap strings fin_maps pretty.

Local Open Scope string_scope.
Local Open Scope list_scope.
Local Open Scope Z_scope.

(** ** Python values shared by all modules *)

(** A raised Python exception: the class name and [str(e)].  Only
    subclasses of [Exception] are represented. *)
Record exn := Exn { exn_class : string; exn_msg : string }.

(** Outcome of evaluating a Python expression. *)
Inductive result (A : Type) : Type :=
| Ok (a : A)
| Raise (e : exn).
Arguments Ok {A} a.
Arguments Raise {A} e.

#[global] Instance result_ret : MRet result := fun _ a => Ok a.
#[global] Instance result_bind : MBind result := fun _ _ f m =>
  match m with
  | Ok a => f a
  | Raise e => Raise e
  end.
#[global] Instance result_throw : MThrow exn result := fun _ e => Raise e.

(** A Python [str] is a [string]; its characters are the code points below
    256.  [len(s)] counts them. *)
Definition len (s : string) : Z := Z.of_nat (String.length s).

(** [str.isspace] on one character (code points below 256). *)
Definition isspace (c : ascii) : bool :=
  let n := nat_of_ascii c in
  ((9 <=? n)%nat && (n <=? 13)%nat) || ((28 <=? n)%nat && (n <=? 32)%nat)
  || (n =? 133)%nat || (n =? 160)%nat.

Fixpoint lstrip (s : string) : string :=
  match s with
  | EmptyString => EmptyString
  | String c s' => if isspace c then lstrip s' else s
  end.

Fixpoint rstrip (s : string) : string :=
  match s with
  | EmptyString => EmptyString
  | String c s' =>
      match rstrip s' with
      | EmptyString => if isspace c then EmptyString else String c EmptyString
      | r => String c r
      end
  end.

(** [s.strip()] *)
Definition strip (s : string) : string := rstrip (lstrip s).

(** [list(text)]: the characters of a string, each as a string. *)
Fixpoint chars (s : string) : list string :=
  match s with
  | EmptyString => []
  | String c s' => String c EmptyString :: chars s'
  end.

(** [sep in text] for a literal separator. *)
Fixpoint occurs (sep s : string) : bool :=
  String.prefix sep s ||
  match s with
  | EmptyString => false
  | String _ s' => occurs sep s'
  end.

(** The pieces of [s] between the leftmost, non-overlapping occurrences of
    the non-empty literal [sep]; [skip] counts the characters of a matched
    occurrence that are still to be passed over, [cur] is the piece being
    accumulated. *)
Fixpoint pieces (sep : string) (skip : nat) (cur s : string) : list string :=
  match s with
  | EmptyString => [cur]
  | String c s' =>
      match skip with
      | S k => pieces sep k cur s'
      | O =>
          if String.prefix sep s
          then cur :: pieces sep (String.length sep - 1) EmptyString s'
          else pieces sep 0 (cur +:+ String c EmptyString) s'
      end
  end.

(** ** The text splitter of langchain ([langchain.text_splitter])

    [admin.py] imports [RecursiveCharacterTextSplitter] (line 9) and
    [split_text] does nothing but construct one and call
    [split_documents]; the class is embedded here with the defaults that
    call leaves in place: [length_function=len], [keep_separator=True],
    [is_separator_regex=False], [strip_whitespace=True],
    [add_start_index=False], [separators=None]. *)
Module langchain.

Record Document := mkDocument {
  page_content : string;
  metadata : list (string * string)
}.

Record TextSplitter := mkTextSplitter {
  _chunk_size : Z;
  _chunk_overlap : Z;
  _keep_separator : bool;
  _strip_whitespace : bool;
  _separators : list string
}.

(** [TextSplitter.__init__]: the only configuration check. *)
Definition TextSplitter_init (chunk_size chunk_overlap : Z)
    (keep_separator : bool) (separators : list string) : result TextSplitter :=
  if chunk_overlap >? chunk_size then
    Raise (Exn "ValueError"
      ("Got a larger chunk overlap (" +:+ pretty chunk_overlap +:+
       ") than chunk size (" +:+ pretty chunk_size +:+ "), should be smaller."))
  else
    Ok (mkTextSplitter chunk_size chunk_overlap keep_separator true separators).

(** [RecursiveCharacterTextSplitter(chunk_size=.., chunk_overlap=..)] *)
Definition RecursiveCharacterTextSplitter (chunk_size chunk_overlap : Z)
    : result TextSplitter :=
  TextSplitter_init chunk_size chunk_overlap true
    [String "010" (String "010" EmptyString); String "010" EmptyString; " "; ""].

(** [_split_text_with_regex(text, separator, keep_separator)] for a
    literal separator: with [keep_separator] each separator is glued to
    the front of the piece that follows it; empty pieces are dropped. *)
Definition _split_text_with_regex (text separator : string)
    (keep_separator : bool) : list string :=
  let splits :=
    if String.eqb separator "" then chars text
    else
      let _splits := pieces separator 0 "" text in
      if keep_separator then
        match _splits with
        | [] => []
        | p0 :: ps => p0 :: map (fun p => separator +:+ p) ps
        end
      else _splits in
  filter (fun s => s ≠ "") splits.

(** [TextSplitter._join_docs] *)
Definition _join_docs (sp : TextSplitter) (docs : list string)
    (separator : string) : option string :=
  let text := String.concat separator docs in
  let text := if _strip_whitespace sp then strip text else text in
  if String.eqb text "" then None else Some text.

(** The inner [while] of [_merge_splits]: drop pieces from the front of
    [current_doc] until what is left fits the overlap and leaves room for
    a piece of length [_len]. *)
Fixpoint pop_front (sp : TextSplitter) (separator_len _len : Z)
    (current_doc : list string) (total : Z) : result (list string * Z) :=
  if (total >? _chunk_overlap sp)
     || ((total + _len + (if 0 <? Z.of_nat (length current_doc)
                          then separator_len else 0) >? _chunk_size sp)
         && (total >? 0))
  then
    match current_doc with
    | [] => Raise (Exn "IndexError" "list index out of range")
    | d0 :: rest =>
        pop_front sp separator_len _len rest
          (total - (len d0 + (if 1 <? Z.of_nat (length current_doc)
                              then separator_len else 0)))
    end
  else Ok (current_doc, total).

(** The [for d in splits] loop of [_merge_splits] with its three
    variables [docs], [current_doc] and [total]. *)
Fixpoint merge_loop (sp : TextSplitter) (separator : string)
    (splits docs current_doc : list string) (total : Z)
    : result (list string) :=
  let separator_len := len separator in
  match splits with
  | [] => Ok (docs ++ option_list (_join_docs sp current_doc separator))
  | d :: splits' =>
      let _len := len d in
      '(docs, current_doc, total) ←
        (if total + _len + (if 0 <? Z.of_nat (length current_doc)
                            then separator_len else 0) >? _chunk_size sp
         then
           if 0 <? Z.of_nat (length current_doc) then
             let docs := docs ++ option_list (_join_docs sp current_doc separator) in
             '(current_doc, total) ←
                pop_front sp separator_len _len current_doc total;
             Ok (docs, current_doc, total)
           else Ok (docs, current_doc, total)
         else Ok (docs, current_doc, total));
      let current_doc := current_doc ++ [d] in
      merge_loop sp separator splits' docs current_doc
        (total + (_len + (if 1 <? Z.of_nat (length current_doc)
                          then separator_len else 0)))
  end.

(** [TextSplitter._merge_splits(splits, separator)] *)
Definition _merge_splits (sp : TextSplitter) (splits : list string)
    (separator : string) : result (list string) :=
  merge_loop sp separator splits [] [] 0.

(** Flush of [_good_splits] into [final_chunks]. *)
Definition flush (sp : TextSplitter) (_separator : string)
    (final_chunks _good_splits : list string) : result (list string) :=
  match _good_splits with
  | [] => Ok final_chunks
  | _ => merged_text ← _merge_splits sp _good_splits _separator;
         Ok (final_chunks ++ merged_text)
  end.

(** The [for s in splits] loop of
    [RecursiveCharacterTextSplitter._split_text]; [recur] is the
    recursive call on [new_separators], absent when that list is empty. *)
Fixpoint chunks_loop (sp : TextSplitter) (_separator : string)
    (recur : option (string → result (list string)))
    (splits final_chunks _good_splits : list string)
    : result (list string) :=
  match splits with
  | [] => flush sp _separator final_chunks _good_splits
  | s :: splits' =>
      if len s <? _chunk_size sp then
        chunks_loop sp _separator recur splits' final_chunks (_good_splits ++ [s])
      else
        final_chunks ← flush sp _separator final_chunks _good_splits;
        match recur with
        | None =>
            chunks_loop sp _separator recur splits' (final_chunks ++ [s]) []
        | Some r =>
            other_info ← r s;
            chunks_loop sp _separator recur splits' (final_chunks ++ other_info) []
        end
  end.

(** What [_split_text] does once [separator] and [new_separators] are
    chosen. *)
Definition split_with (sp : TextSplitter) (separator : string)
    (recur : option (string → result (list string))) (text : string)
    : result (list string) :=
  let splits := _split_text_with_regex text separator (_keep_separator sp) in
  let _separator := if _keep_separator sp then "" else separator in
  chunks_loop sp _separator recur splits [] [].

(** [RecursiveCharacterTextSplitter._split_text(text, separators)].  The
    search loop picks the first separator that is empty or occurs in the
    text; [last_sep] is [separators[-1]], the choice when none does. *)
Fixpoint _split_text (sp : TextSplitter) (separators : list string)
    (last_sep : string) (text : string) : result (list string) :=
  match separators with
  | [] => split_with sp last_sep None text
  | _s :: rest =>
      if String.eqb _s "" then split_with sp _s None text
      else if occurs _s text then
        split_with sp _s
          (match rest with
           | [] => None
           | _ => Some (_split_text sp rest last_sep)
           end) text
      else _split_text sp rest last_sep text
  end.

(** [RecursiveCharacterTextSplitter.split_text(text)] *)
Definition split_text (sp : TextSplitter) (text : string)
    : result (list string) :=
  _split_text sp (_separators sp) (List.last (_separators sp) "") text.

(** [TextSplitter.split_documents] (through [create_documents]): every
    chunk of a document becomes a document carrying a copy of its
    metadata, in order. *)
Fixpoint split_documents (sp : TextSplitter) (documents : list Document)
    : result (list Document) :=
  match documents with
  | [] => Ok []
  | doc :: documents' =>
      chunks ← split_text sp (page_content doc);
      rest ← split_documents sp documents';
      Ok (map (fun chunk => mkDocument chunk (metadata doc)) chunks ++ rest)
  end.

End langchain.


(** ** The admin script ([admin/admin.py]) *)
Module admin.
Import langchain.

Definition bytes := list Byte.byte.

(** A [BedrockEmbeddings] instance. *)
Record Embeddings := mkEmbeddings { model_id : string }.

(** A FAISS vector store, represented by the two payloads [save_local]
    writes for it: the index structure ([.faiss]) and the pickled
    docstore with the fragments and their metadata ([.pkl]). *)
Record VectorStore := mkVectorStore {
  index_payload : bytes;
  docstore_payload : bytes
}.

(** Behaviour of the collaborators that the script cannot see into. *)
Record Env := mkEnv {
  (** [os.getenv("BUCKET_NAME")] *)
  getenv_BUCKET_NAME : option string;
  (** [BedrockEmbeddings(model_id=.., client=bedrock_client)] *)
  BedrockEmbeddings : string → result Embeddings;
  (** the [n]-th value drawn from [uuid.uuid4()], as [str] *)
  uuid4 : nat → string;
  (** the error, if any, of opening a path for writing *)
  write_fault : string → option exn;
  (** [PyPDFLoader(..).load_and_split()] on the bytes of the file *)
  load_and_split : bytes → result (list Document);
  (** [FAISS.from_documents(documents, embeddings)]: embeds every
      document and builds the index *)
  FAISS_from_documents : list Document → Embeddings → result VectorStore;
  (** the error, if any, of the [n]-th call of [s3_client.upload_file] *)
  upload_fault : nat → option exn;
  (** the error, if any, of [boto3.client(service_name)] *)
  client_fault : string → option exn
}.

(** What Streamlit has been asked to render. *)
Inductive Widget :=
| st_title (body : string)
| st_write (body : string)
| st_write_document (body : Document)
| st_success (body : string)
| st_error (body : string).

(** Invocations of the collaborators. *)
Inductive Call :=
| BedrockEmbeddings_init (model_id : string)
| uuid_uuid4
| open_wb (path : string)
| PyPDFLoader_load_and_split (path : string)
| FAISS_from_documents_call (documents : list Document) (embeddings : Embeddings)
| FAISS_save_local (index_name folder_path : string)
| s3_upload_file (Filename : string) (Bucket : option string) (Key : string)
| boto3_client (service_name : string).

(** The state the script runs in.  [calls] records every invocation of a
    collaborator, oldest first, with [true] when it returned normally and
    [false] when it raised. *)
Record World := mkWorld {
  fs : gmap string bytes;
  s3 : gmap (string * string) bytes;
  ui : list Widget;
  calls : list (Call * bool);
  uuids : nat;
  uploads : nat
}.

Definition set_fs (f : gmap string bytes → gmap string bytes) (w : World) : World :=
  mkWorld (f (fs w)) (s3 w) (ui w) (calls w) (uuids w) (uploads w).
Definition set_s3 (f : gmap (string * string) bytes → gmap (string * string) bytes)
    (w : World) : World :=
  mkWorld (fs w) (f (s3 w)) (ui w) (calls w) (uuids w) (uploads w).
Definition render (x : Widget) (w : World) : World :=
  mkWorld (fs w) (s3 w) (ui w ++ [x]) (calls w) (uuids w) (uploads w).
Definition record (c : Call) (ok : bool) (w : World) : World :=
  mkWorld (fs w) (s3 w) (ui w) (calls w ++ [(c, ok)]) (uuids w) (uploads w).
Definition next_uuid (w : World) : World :=
  mkWorld (fs w) (s3 w) (ui w) (calls w) (S (uuids w)) (uploads w).
Definition next_upload (w : World) : World :=
  mkWorld (fs w) (s3 w) (ui w) (calls w) (uuids w) (S (uploads w)).

(** Python statements: a state transformer that returns or raises. *)
Definition M (A : Type) : Type := World → result A * World.

#[global] Instance M_ret : MRet M := fun _ a w => (Ok a, w).
#[global] Instance M_bind : MBind M := fun _ _ f m w =>
  match m w with
  | (Ok a, w') => f a w'
  | (Raise e, w') => (Raise e, w')
  end.
#[global] Instance M_throw : MThrow exn M := fun _ e w => (Raise e, w).

(** [try: body except Exception as e: handler(e)] *)
Definition try_except {A} (body : M A) (handler : exn → M A) : M A :=
  fun w =>
    match body w with
    | (Ok a, w') => (Ok a, w')
    | (Raise e, w') => handler e w'
    end.

(** A pure computation that may raise. *)
Definition eval {A} (r : result A) : M A := fun w => (r, w).

(** A call of a collaborator with outcome [r], entered into [calls]. *)
Definition invoke {A} (c : Call) (r : result A) : M A :=
  fun w => (r, record c (match r with Ok _ => true | Raise _ => false end) w).

Definition st (x : Widget) : M unit := fun w => (Ok (), render x w).

(** [l[i]] *)
Definition getitem {A} (l : list A) (i : nat) : M A :=
  match l !! i with
  | Some x => mret x
  | None => mthrow (Exn "IndexError" "list index out of range")
  end.

(** Module globals; they are assigned once, when the module body runs. *)
Record Globals := mkGlobals {
  BUCKET_NAME : option string;
  bedrock_embeddings : option Embeddings
}.

Section WithEnv.
Variable E : Env.

Definition new_BedrockEmbeddings (model_id : string) : M Embeddings :=
  invoke (BedrockEmbeddings_init model_id) (BedrockEmbeddings E model_id).

(** [with open(path, mode="wb") as w: w.write(data)] *)
Definition write_file (path : string) (data : bytes) : M unit :=
  fun w =>
    match write_fault E path with
    | Some e => invoke (open_wb path) (Raise e) w
    | None => invoke (open_wb path) (Ok ()) (set_fs <[path := data]> w)
    end.

(** [PyPDFLoader(path).load_and_split()]: the loader reads the local
    file and refuses a path that is not a file. *)
Definition PyPDFLoader (path : string) : M (list Document) :=
  fun w =>
    invoke (PyPDFLoader_load_and_split path)
      (match fs w !! path with
       | Some data => load_and_split E data
       | None => Raise (Exn "ValueError"
                    ("File path " +:+ path +:+ " is not a valid file or url"))
       end) w.

Definition FAISS_from_documents' (documents : list Document)
    (embeddings : Embeddings) : M VectorStore :=
  invoke (FAISS_from_documents_call documents embeddings)
    (FAISS_from_documents E documents embeddings).

(** [vectorstore.save_local(index_name=.., folder_path=..)]: writes
    [<folder>/<index_name>.faiss], then [<folder>/<index_name>.pkl];
    [folder_path] is a directory path ending in a slash. *)
Definition save_local (vs : VectorStore) (index_name folder_path : string)
    : M unit :=
  fun w =>
    match write_fault E (folder_path +:+ index_name +:+ ".faiss") with
    | Some e => invoke (FAISS_save_local index_name folder_path) (Raise e) w
    | None =>
        let w := set_fs <[folder_path +:+ index_name +:+ ".faiss" := index_payload vs]> w in
        match write_fault E (folder_path +:+ index_name +:+ ".pkl") with
        | Some e => invoke (FAISS_save_local index_name folder_path) (Raise e) w
        | None =>
            let w := set_fs <[folder_path +:+ index_name +:+ ".pkl" := docstore_payload vs]> w in
            invoke (FAISS_save_local index_name folder_path) (Ok ()) w
        end
    end.

(** [s3_client.upload_file(Filename=.., Bucket=.., Key=..)]: stores the
    content of the local file under [(Bucket, Key)], replacing what was
    there; nothing is stored when the call raises. *)
Definition upload_file (Filename : string) (Bucket : option string)
    (Key : string) : M unit :=
  fun w =>
    let n := uploads w in
    let w := next_upload w in
    match Bucket, fs w !! Filename, upload_fault E n with
    | None, _, _ =>
        invoke (s3_upload_file Filename Bucket Key)
          (Raise (Exn "ParamValidationError" "Invalid type for parameter Bucket")) w
    | Some _, None, _ =>
        invoke (s3_upload_file Filename Bucket Key)
          (Raise (Exn "FileNotFoundError" ("No such file or directory: " +:+ Filename))) w
    | Some _, Some _, Some e =>
        invoke (s3_upload_file Filename Bucket Key) (Raise e) w
    | Some b, Some data, None =>
        invoke (s3_upload_file Filename Bucket Key) (Ok ())
          (set_s3 <[(b, Key) := data]> w)
    end.

(** Lines 23 and 29-44 of the module body (the two clients of lines 22
    and 26 are [boto3_clients] below, the whole is [module_level]).  The
    bucket name is read, and the embedding models are tried in order. *)
Definition module_body : M Globals :=
  bedrock_embeddings ←
    try_except
      (e ← new_BedrockEmbeddings "amazon.titan-embed-text-v1"; mret (Some e))
      (fun _ =>
         try_except
           (e ← new_BedrockEmbeddings "cohere.embed-english-v3"; mret (Some e))
           (fun _ =>
              st (st_error "No Bedrock embedding models are available. Please enable model access in AWS Bedrock console.");;
              mret None));
  mret (mkGlobals (getenv_BUCKET_NAME E) bedrock_embeddings).

(** [boto3.client(service_name)]; the client object itself is not
    represented, only whether its construction raises. *)
Definition new_client (service_name : string) : M unit :=
  invoke (boto3_client service_name)
    (match client_fault E service_name with
     | Some e => Raise e
     | None => Ok ()
     end).

(** Lines 22 and 26: the two clients, constructed outside any [try]. *)
Definition boto3_clients : M unit :=
  new_client "s3";;
  new_client "bedrock-runtime".

(** Lines 21-44: everything the module runs before [main()] is reached. *)
Definition module_level : M Globals :=
  boto3_clients;;
  module_body.

Definition get_unique_uuid : M string :=
  fun w => invoke uuid_uuid4 (Ok (uuid4 E (uuids w))) (next_uuid w).

Definition split_text (pages : list Document) (chunk_size overlap_size : Z)
    : M (list Document) :=
  eval (text_splitter ← RecursiveCharacterTextSplitter chunk_size overlap_size;
        split_documents text_splitter pages).

Definition create_vector_store (G : Globals) (request_id : string)
    (documents : list Document) : M bool :=
  match bedrock_embeddings G with
  | None =>
      st (st_error "Bedrock embeddings not available. Please enable model access in AWS Bedrock console.");;
      mret false
  | Some embeddings =>
      try_except
        (vectorstore_faiss ← FAISS_from_documents' documents embeddings;
         let file_name := request_id +:+ ".bin" in
         let folder_path := "/tmp/" in
         save_local vectorstore_faiss file_name folder_path;;
         upload_file (folder_path +:+ file_name +:+ ".faiss")
           (BUCKET_NAME G) "my_faiss.faiss";;
         upload_file (folder_path +:+ file_name +:+ ".pkl")
           (BUCKET_NAME G) "my_faiss.pkl";;
         mret true)
        (fun e =>
           st (st_error ("Error creating vector store: " +:+ exn_msg e));;
           mret false)
  end.

(** [main()]; [uploaded_file] is what [st.file_uploader] returned, the
    bytes of the upload or [None]. *)
Definition main (G : Globals) (uploaded_file : option bytes) : M unit :=
  st (st_title "PDF Document Processing Admin");;
  st (st_write "Upload a PDF document for processing");;
  match uploaded_file with
  | None => mret ()
  | Some data =>
      try_except
        (request_id ← get_unique_uuid;
         st (st_write ("Request ID: " +:+ request_id));;
         let saved_file_name := request_id +:+ ".pdf" in
         write_file saved_file_name data;;
         pages ← PyPDFLoader saved_file_name;
         st (st_success ("Successfully processed PDF with " +:+
                         pretty (length pages) +:+ " pages"));;
         st (st_write ("Total Pages: " +:+ pretty (length pages)));;
         splitted_docs ← split_text pages 1000 200;
         st (st_write ("Splitted Docs len: " +:+ pretty (length splitted_docs)));;
         st (st_write "===============");;
         d ← getitem splitted_docs 0;
         st (st_write_document d);;
         st (st_write "===============");;
         d ← getitem splitted_docs 1;
         st (st_write_document d);;
         st (st_write "creating the vector store");;
         result ← create_vector_store G request_id splitted_docs;
         if result : bool
         then st (st_write "yey!! PDF processed successfully")
         else st (st_write "Error!! Please check again"))
        (fun e => st (st_error ("Error processing file: " +:+ exn_msg e)))
  end.

(** One run of the script: the module level, then [main()]. *)
Definition script (uploaded_file : option bytes) : M unit :=
  G ← module_level; main G uploaded_file.

End WithEnv.

End admin.

(** ** Vocabulary of the properties *)

Section Vocabulary.
Import langchain admin.

(** Total length of the pieces of a chunk under construction. *)
Definition total_len (l : list string) : Z := foldr (fun s acc => len s + acc) 0 l.

(** Every string of [l] fits the chunk size of [sp]. *)
Definition bounded (sp : TextSplitter) (l : list string) : Prop :=
  Forall (fun c => len c ≤ _chunk_size sp) l.

(** What the loop of [_split_text] needs from the recursive call: it
    returns chunks within the bound; when there is none, the pieces
    themselves are within the bound. *)
Definition recur_ok (sp : TextSplitter)
    (recur : option (string → result (list string)))
    (splits : list string) : Prop :=
  match recur with
  | Some r => ∀ s, ∃ out, r s = Ok out ∧ bounded sp out
  | None => bounded sp splits
  end.

(** A world in which nothing has happened yet. *)
Definition empty_world : World := mkWorld ∅ ∅ [] [] 0 0.

(** The embedding models of the module body, in the order they are tried. *)
Definition model_priority : list string :=
  ["amazon.titan-embed-text-v1"; "cohere.embed-english-v3"].

(** The first model of [ids] whose client initialises, if any. *)
Fixpoint first_initialised (E : Env) (ids : list string) : option Embeddings :=
  match ids with
  | [] => None
  | id :: ids' =>
      match BedrockEmbeddings E id with
      | Ok e => Some e
      | Raise _ => first_initialised E ids'
      end
  end.

(** The local file [create_vector_store] stages a payload in:
    [folder_path + file_name + ext] with [file_name = f"{request_id}.bin"]. *)
Definition staging_path (request_id ext : string) : string :=
  "/tmp/" +:+ (request_id +:+ ".bin") +:+ ext.

(** The calls a run has added to the record. *)
Definition new_calls (w w' : World) : list (Call * bool) :=
  drop (length (calls w)) (calls w').

(** Calls of the index builder or of the publisher. *)
Definition builds_or_publishes (c : Call) : bool :=
  match c with
  | FAISS_from_documents_call _ _ | FAISS_save_local _ _ | s3_upload_file _ _ _ => true
  | _ => false
  end.

(** An availability check at the publication key: both payloads are there. *)
Definition fully_published (bucket : string) (w : World) : Prop :=
  is_Some (s3 w !! (bucket, "my_faiss.faiss")) ∧ is_Some (s3 w !! (bucket, "my_faiss.pkl")).

(** The stages of [create_vector_store], as changes of the world. *)
Definition built (documents : list Document) (emb : Embeddings) (ok : bool)
    (w : World) : World :=
  record (FAISS_from_documents_call documents emb) ok w.

Definition staged (request_id ext : string) (data : bytes) (w : World) : World :=
  set_fs <[staging_path request_id ext := data]> w.

Definition saved (request_id : string) (ok : bool) (w : World) : World :=
  record (FAISS_save_local (request_id +:+ ".bin") "/tmp/") ok w.

Definition upload_attempt (request_id ext : string) (bucket : option string)
    (key : string) (ok : bool) (w : World) : World :=
  record (s3_upload_file (staging_path request_id ext) bucket key) ok (next_upload w).

Definition stored (bucket key : string) (data : bytes) (w : World) : World :=
  set_s3 <[(bucket, key) := data]> w.

Definition reported (e : exn) (w : World) : World :=
  render (st_error ("Error creating vector store: " +:+ exn_msg e)) w.

(** The runs of [create_vector_store]: which collaborator stopped it, if
    any, with the value returned and the world left behind. *)
Inductive cvs_run (E : Env) (G : Globals) (request_id : string)
    (documents : list Document) (w : World) : bool → World → Prop :=
| run_no_embeddings :
    bedrock_embeddings G = None →
    cvs_run E G request_id documents w false
      (render (st_error "Bedrock embeddings not available. Please enable model access in AWS Bedrock console.") w)
| run_build_failed emb e :
    bedrock_embeddings G = Some emb →
    FAISS_from_documents E documents emb = Raise e →
    cvs_run E G request_id documents w false
      (reported e (built documents emb false w))
| run_index_not_staged emb vs e :
    bedrock_embeddings G = Some emb →
    FAISS_from_documents E documents emb = Ok vs →
    write_fault E (staging_path request_id ".faiss") = Some e →
    cvs_run E G request_id documents w false
      (reported e (saved request_id false (built documents emb true w)))
| run_docstore_not_staged emb vs e :
    bedrock_embeddings G = Some emb →
    FAISS_from_documents E documents emb = Ok vs →
    write_fault E (staging_path request_id ".faiss") = None →
    write_fault E (staging_path request_id ".pkl") = Some e →
    cvs_run E G request_id documents w false
      (reported e (saved request_id false
         (staged request_id ".faiss" (index_payload vs)
            (built documents emb true w))))
| run_no_bucket emb vs :
    bedrock_embeddings G = Some emb →
    FAISS_from_documents E documents emb = Ok vs →
    write_fault E (staging_path request_id ".faiss") = None →
    write_fault E (staging_path request_id ".pkl") = None →
    BUCKET_NAME G = None →
    cvs_run E G request_id documents w false
      (reported (Exn "ParamValidationError" "Invalid type for parameter Bucket")
         (upload_attempt request_id ".faiss" None "my_faiss.faiss" false
            (saved request_id true
               (staged request_id ".pkl" (docstore_payload vs)
                  (staged request_id ".faiss" (index_payload vs)
                     (built documents emb true w))))))
| run_index_not_uploaded emb vs b e :
    bedrock_embeddings G = Some emb →
    FAISS_from_documents E documents emb = Ok vs →
    write_fault E (staging_path request_id ".faiss") = None →
    write_fault E (staging_path request_id ".pkl") = None →
    BUCKET_NAME G = Some b →
    upload_fault E (uploads w) = Some e →
    cvs_run E G request_id documents w false
      (reported e
         (upload_attempt request_id ".faiss" (Some b) "my_faiss.faiss" false
            (saved request_id true
               (staged request_id ".pkl" (docstore_payload vs)
                  (staged request_id ".faiss" (index_payload vs)
                     (built documents emb true w))))))
| run_docstore_not_uploaded emb vs b e :
    bedrock_embeddings G = Some emb →
    FAISS_from_documents E documents emb = Ok vs →
    write_fault E (staging_path request_id ".faiss") = None →
    write_fault E (staging_path request_id ".pkl") = None →
    BUCKET_NAME G = Some b →
    upload_fault E (uploads w) = None →
    upload_fault E (S (uploads w)) = Some e →
    cvs_run E G request_id documents w false
      (reported e
         (upload_attempt request_id ".pkl" (Some b) "my_faiss.pkl" false
            (stored b "my_faiss.faiss" (index_payload vs)
               (upload_attempt request_id ".faiss" (Some b) "my_faiss.faiss" true
                  (saved request_id true
                     (staged request_id ".pkl" (docstore_payload vs)
                        (staged request_id ".faiss" (index_payload vs)
                           (built documents emb true w))))))))
| run_published emb vs b :
    bedrock_embeddings G = Some emb →
    FAISS_from_documents E documents emb = Ok vs →
    write_fault E (staging_path request_id ".faiss") = None →
    write_fault E (staging_path request_id ".pkl") = None →
    BUCKET_NAME G = Some b →
    upload_fault E (uploads w) = None →
    upload_fault E (S (uploads w)) = None →
    cvs_run E G request_id documents w true
      (stored b "my_faiss.pkl" (docstore_payload vs)
         (upload_attempt request_id ".pkl" (Some b) "my_faiss.pkl" true
            (stored b "my_faiss.faiss" (index_payload vs)
               (upload_attempt request_id ".faiss" (Some b) "my_faiss.faiss" true
                  (saved request_id true
                     (staged request_id ".pkl" (docstore_payload vs)
                        (staged request_id ".faiss" (index_payload vs)
                           (built documents emb true w)))))))).

(** The calls of a complete run of [create_vector_store], in order. *)
Definition publication_calls (G : Globals) (request_id : string)
    (documents : list Document) : list Call :=
  match bedrock_embeddings G with
  | None => []
  | Some emb =>
      [FAISS_from_documents_call documents emb;
       FAISS_save_local (request_id +:+ ".bin") "/tmp/";
       s3_upload_file (staging_path request_id ".faiss") (BUCKET_NAME G) "my_faiss.faiss";
       s3_upload_file (staging_path request_id ".pkl") (BUCKET_NAME G) "my_faiss.pkl"]
  end.

(** The outcome of the chunking step of [main]. *)
Definition split_result (pages : list Document) (chunk_size overlap : Z)
    : result (list Document) :=
  fst (split_text pages chunk_size overlap empty_world).

(** The stages of [main], as changes of the world. *)
Definition greeted (w : World) : World :=
  render (st_write "Upload a PDF document for processing")
    (render (st_title "PDF Document Processing Admin") w).

Definition identified (request_id : string) (w : World) : World :=
  render (st_write ("Request ID: " +:+ request_id))
    (record uuid_uuid4 true (next_uuid w)).

Definition kept (request_id : string) (data : bytes) (w : World) : World :=
  record (open_wb (request_id +:+ ".pdf")) true
    (set_fs <[request_id +:+ ".pdf" := data]> w).

Definition loaded (request_id : string) (ok : bool) (w : World) : World :=
  record (PyPDFLoader_load_and_split (request_id +:+ ".pdf")) ok w.

Definition counted (pages : list Document) (w : World) : World :=
  render (st_write ("Total Pages: " +:+ pretty (length pages)))
    (render (st_success ("Successfully processed PDF with " +:+
                         pretty (length pages) +:+ " pages")) w).

Definition chunked (splitted_docs : list Document) (w : World) : World :=
  render (st_write "===============")
    (render (st_write ("Splitted Docs len: " +:+ pretty (length splitted_docs))) w).

Definition shown_first (d : Document) (w : World) : World :=
  render (st_write "===============") (render (st_write_document d) w).

Definition shown_second (d : Document) (w : World) : World :=
  render (st_write "creating the vector store") (render (st_write_document d) w).

Definition failed (e : exn) (w : World) : World :=
  render (st_error ("Error processing file: " +:+ exn_msg e)) w.

Definition concluded (result : bool) (w : World) : World :=
  render (st_write (if result then "yey!! PDF processed successfully"
                    else "Error!! Please check again")) w.

(** The runs of [main] on an upload: where it stopped, and the world left
    behind.  [request_id] is the identifier drawn for the run. *)
Inductive main_run (E : Env) (G : Globals) (data : bytes) (w : World)
    (request_id : string) : World → Prop :=
| run_not_kept e :
    write_fault E (request_id +:+ ".pdf") = Some e →
    main_run E G data w request_id
      (failed e (record (open_wb (request_id +:+ ".pdf")) false
                   (identified request_id (greeted w))))
| run_not_loaded e :
    write_fault E (request_id +:+ ".pdf") = None →
    load_and_split E data = Raise e →
    main_run E G data w request_id
      (failed e (loaded request_id false
                   (kept request_id data (identified request_id (greeted w)))))
| run_not_split pages e :
    write_fault E (request_id +:+ ".pdf") = None →
    load_and_split E data = Ok pages →
    split_result pages 1000 200 = Raise e →
    main_run E G data w request_id
      (failed e (counted pages (loaded request_id true
                   (kept request_id data (identified request_id (greeted w))))))
| run_no_fragment pages :
    write_fault E (request_id +:+ ".pdf") = None →
    load_and_split E data = Ok pages →
    split_result pages 1000 200 = Ok [] →
    main_run E G data w request_id
      (failed (Exn "IndexError" "list index out of range")
         (chunked [] (counted pages (loaded request_id true
            (kept request_id data (identified request_id (greeted w)))))))
| run_one_fragment pages d :
    write_fault E (request_id +:+ ".pdf") = None →
    load_and_split E data = Ok pages →
    split_result pages 1000 200 = Ok [d] →
    main_run E G data w request_id
      (failed (Exn "IndexError" "list index out of range")
         (shown_first d (chunked [d] (counted pages (loaded request_id true
            (kept request_id data (identified request_id (greeted w))))))))
| run_indexed pages d0 d1 rest result w' :
    write_fault E (request_id +:+ ".pdf") = None →
    load_and_split E data = Ok pages →
    split_result pages 1000 200 = Ok (d0 :: d1 :: rest) →
    cvs_run E G request_id (d0 :: d1 :: rest)
      (shown_second d1 (shown_first d0 (chunked (d0 :: d1 :: rest)
         (counted pages (loaded request_id true
            (kept request_id data (identified request_id (greeted w)))))))) result w' →
    main_run E G data w request_id (concluded result w').

(** Environments and worlds used to exercise the properties: the bucket is
    configured and no local write fails; [models] tells whether the
    embedding clients initialise, [pages] is what the loader finds in any
    document, [failing_upload] is the call of [upload_file] that raises. *)
Definition exercise (models : bool) (pages : list Document)
    (failing_upload : option nat) : Env :=
  mkEnv (Some "bucket")
    (fun m => if models then Ok (mkEmbeddings m)
              else Raise (Exn "ValidationError" "model access is not enabled"))
    (fun n => "request-" +:+ pretty n)
    (fun _ => None)
    (fun _ => Ok pages)
    (fun docs _ => Ok (mkVectorStore (replicate (length docs) Byte.x01)
                                     (replicate (length docs) Byte.x02)))
    (fun n => if decide (failing_upload = Some n)
              then Some (Exn "ClientError" "An error occurred (500)")
              else None)
    (fun _ => None).

(** As [exercise] without faults, but the first embedding model does not
    initialise. *)
Definition exercise_fallback (pages : list Document) : Env :=
  mkEnv (Some "bucket")
    (fun m => if String.eqb m "amazon.titan-embed-text-v1"
              then Raise (Exn "ValidationError" "model access is not enabled")
              else Ok (mkEmbeddings m))
    (fun n => "request-" +:+ pretty n)
    (fun _ => None)
    (fun _ => Ok pages)
    (fun docs _ => Ok (mkVectorStore (replicate (length docs) Byte.x01)
                                     (replicate (length docs) Byte.x02)))
    (fun _ => None)
    (fun _ => None).

Definition two_fragments : list Document :=
  [mkDocument "first page" []; mkDocument "second page" []].

Definition one_fragment : list Document := [mkDocument "other document" []].

Definition ready : Globals :=
  mkGlobals (Some "bucket") (Some (mkEmbeddings "amazon.titan-embed-text-v1")).

(** Whether a constructor call returned. *)
Definition returned {A} (r : result A) : bool :=
  match r with
  | Ok _ => true
  | Raise _ => false
  end.

(** A page taken as one fragment: its text without the white space around
    it, under the metadata of the page; nothing when the page is blank. *)
Definition whole_page (page : Document) : list Document :=
  if String.eqb (strip (page_content page)) "" then []
  else [mkDocument (strip (page_content page)) (metadata page)].

(** [a] occurs in [b] as it stands, as a run of consecutive characters. *)
Definition excerpt_of (a b : string) : Prop :=
  ∃ before after, b = before +:+ a +:+ after.

(** The world after request [a] has been published from an empty one. *)
Definition earlier_publication (E : Env) : World :=
  snd (create_vector_store E ready "a" two_fragments empty_world).

End Vocabulary.

(** * Properties *)

(** ** Strings *)

Lemma gtb_false (a b : Z) : (a >? b) = false ↔ a ≤ b.
Proof. rewrite Z.gtb_ltb. apply Z.ltb_ge. Qed.


Lemma len_nonneg (s : string) : 0 ≤ len s.
Proof. unfold len. lia. Qed.

Lemma length_append (s1 s2 : string) :
  String.length (s1 +:+ s2) = (String.length s1 + String.length s2)%nat.
Proof. induction s1 as [|c s1 IH]; simpl; [reflexivity | now rewrite IH]. Qed.

Lemma len_append (s1 s2 : string) : len (s1 +:+ s2) = len s1 + len s2.
Proof. unfold len. rewrite length_append. lia. Qed.

Lemma lstrip_length (s : string) : (String.length (lstrip s) <= String.length s)%nat.
Proof.
  induction s as [|c s IH]; simpl; [lia |].
  destruct (isspace c); simpl; lia.
Qed.

Lemma rstrip_length (s : string) : (String.length (rstrip s) <= String.length s)%nat.
Proof.
  induction s as [|c s IH]; simpl; [lia |].
  destruct (rstrip s) eqn:Hr; simpl in *.
  - destruct (isspace c); simpl; lia.
  - lia.
Qed.

Lemma strip_len (s : string) : len (strip s) ≤ len s.
Proof.
  unfold len, strip.
  pose proof (rstrip_length (lstrip s)). pose proof (lstrip_length s). lia.
Qed.

Lemma chars_len (s : string) : Forall (fun c => len c = 1) (chars s).
Proof. induction s; simpl; constructor; auto. Qed.

(** ** The splitter: fragment length *)

Section Splitter.
Import langchain.

Lemma total_len_nonneg l : 0 ≤ total_len l.
Proof. induction l; simpl; [lia | pose proof (len_nonneg a); lia]. Qed.

Lemma total_len_app l1 l2 : total_len (l1 ++ l2) = total_len l1 + total_len l2.
Proof. induction l1; simpl; lia. Qed.

Lemma concat_empty_len (l : list string) : len (String.concat "" l) = total_len l.
Proof.
  induction l as [|x l IH]; [reflexivity |].
  destruct l as [|y l].
  - simpl. lia.
  - change (String.concat "" (x :: y :: l)) with (x +:+ "" +:+ String.concat "" (y :: l)).
    rewrite !len_append, IH. simpl. unfold len at 2. simpl. lia.
Qed.

Variable sp : TextSplitter.
Hypothesis Hsize : 1 ≤ _chunk_size sp.
Hypothesis Hoverlap : 0 ≤ _chunk_overlap sp.

Local Abbreviation bounded := (bounded sp).
Local Abbreviation recur_ok := (recur_ok sp).

Lemma join_docs_bound docs :
  total_len docs ≤ _chunk_size sp → bounded (option_list (_join_docs sp docs "")).
Proof.
  intros Hle. unfold _join_docs.
  assert (Hb : len (if _strip_whitespace sp then strip (String.concat "" docs)
                    else String.concat "" docs) ≤ _chunk_size sp).
  { pose proof (concat_empty_len docs). pose proof (strip_len (String.concat "" docs)).
    destruct (_strip_whitespace sp); lia. }
  destruct (String.eqb _ ""); simpl; [constructor |].
  constructor; [exact Hb | constructor].
Qed.

Lemma pop_front_fits _len cd :
  ∃ cd', pop_front sp 0 _len cd (total_len cd) = Ok (cd', total_len cd')
         ∧ (total_len cd' + _len ≤ _chunk_size sp ∨ total_len cd' = 0).
Proof.
  induction cd as [|d0 rest IH].
  - exists []. simpl.
    replace (0 >? _chunk_overlap sp) with false by (symmetry; apply gtb_false; lia).
    rewrite andb_false_r. simpl. split; [reflexivity | right; reflexivity].
  - cbn [pop_front].
    destruct ((total_len (d0 :: rest) >? _chunk_overlap sp)
              || ((total_len (d0 :: rest) + _len +
                   (if 0 <? Z.of_nat (length (d0 :: rest)) then 0 else 0)
                   >? _chunk_size sp) && (total_len (d0 :: rest) >? 0))) eqn:Hc.
    + destruct IH as (cd' & Heq & Hfit). exists cd'. split; [| exact Hfit].
      rewrite <- Heq. f_equal. simpl.
      destruct (1 <? _); lia.
    + exists (d0 :: rest). split; [reflexivity |].
      apply orb_false_iff in Hc as [_ Hc].
      apply andb_false_iff in Hc as [Hc | Hc].
      * left. destruct (0 <? _) in Hc; apply gtb_false in Hc; lia.
      * right. apply gtb_false in Hc.
        pose proof (total_len_nonneg (d0 :: rest)). lia.
Qed.

Lemma merge_loop_bound splits :
  bounded splits →
  ∀ docs cd, bounded docs → total_len cd ≤ _chunk_size sp →
    ∃ out, merge_loop sp "" splits docs cd (total_len cd) = Ok out ∧ bounded out.
Proof.
  induction splits as [|d splits IH]; intros Hsplits docs cd Hdocs Hcd.
  - eexists. split; [reflexivity |].
    apply Forall_app; split; [exact Hdocs | now apply join_docs_bound].
  - apply Forall_cons in Hsplits as [Hd Hsplits].
    cbn [merge_loop]. change (len "") with 0.
    assert (Hnext : ∀ docs' cd', bounded docs' →
               total_len cd' + len d ≤ _chunk_size sp →
               ∃ out, merge_loop sp "" splits docs' (cd' ++ [d])
                        (total_len cd' + (len d +
                           (if 1 <? Z.of_nat (length (cd' ++ [d])) then 0 else 0)))
                      = Ok out ∧ bounded out).
    { intros docs' cd' Hdocs' Hfit.
      replace (total_len cd' + _) with (total_len (cd' ++ [d])).
      - apply IH; [exact Hsplits | exact Hdocs' |].
        rewrite total_len_app. simpl. lia.
      - rewrite total_len_app. simpl. destruct (1 <? _); lia. }
    destruct (total_len cd + len d +
              (if 0 <? Z.of_nat (length cd) then 0 else 0) >? _chunk_size sp) eqn:Hc.
    + destruct (0 <? Z.of_nat (length cd)) eqn:Hne.
      * destruct (pop_front_fits (len d) cd) as (cd' & Hpop & Hfit).
        rewrite Hpop. simpl.
        apply Hnext.
        -- apply Forall_app; split; [exact Hdocs | now apply join_docs_bound].
        -- destruct Hfit; lia.
      * simpl. apply Hnext; [exact Hdocs |].
        apply Z.ltb_ge in Hne. destruct cd; simpl in *; [lia | lia].
    + simpl. apply Hnext; [exact Hdocs |].
      apply gtb_false in Hc. destruct (0 <? _) in Hc; lia.
Qed.

Lemma small_bounded gs :
  Forall (fun s => len s < _chunk_size sp) gs → bounded gs.
Proof. intros H. eapply Forall_impl; [exact H |]. simpl. intros; lia. Qed.

Lemma flush_bound fc gs :
  bounded fc → Forall (fun s => len s < _chunk_size sp) gs →
  ∃ out, flush sp "" fc gs = Ok out ∧ bounded out.
Proof.
  intros Hfc Hgs. unfold flush. destruct gs as [|g gs].
  - eauto.
  - unfold _merge_splits.
    destruct (merge_loop_bound (g :: gs) (small_bounded _ Hgs) [] [])
      as (out & Heq & Hout); [constructor | simpl; lia |].
    change (total_len []) with 0 in Heq. rewrite Heq. simpl. eexists. split; [reflexivity |].
    apply Forall_app; auto.
Qed.

Lemma chunks_loop_bound recur splits :
  recur_ok recur splits →
  ∀ fc gs, bounded fc → Forall (fun s => len s < _chunk_size sp) gs →
    ∃ out, chunks_loop sp "" recur splits fc gs = Ok out ∧ bounded out.
Proof.
  induction splits as [|s splits IH]; intros Hrec fc gs Hfc Hgs.
  - simpl. now apply flush_bound.
  - assert (Hrec' : recur_ok recur splits).
    { destruct recur; simpl in *; [exact Hrec |].
      now apply Forall_cons in Hrec as [_ ?]. }
    cbn [chunks_loop]. destruct (len s <? _chunk_size sp) eqn:Hs.
    + apply IH; [exact Hrec' | exact Hfc |].
      apply Forall_app; split; [exact Hgs |].
      constructor; [| constructor]. now apply Z.ltb_lt in Hs.
    + destruct (flush_bound fc gs Hfc Hgs) as (fc1 & Hflush & Hfc1).
      rewrite Hflush. simpl.
      destruct recur as [r|].
      * destruct (Hrec s) as (other & Hr & Hother). rewrite Hr. simpl.
        apply IH; [exact Hrec' | | constructor].
        apply Forall_app; auto.
      * apply IH; [exact Hrec' | | constructor].
        apply Forall_app; split; [exact Hfc1 |].
        apply Forall_cons in Hrec as [Hs' _]. constructor; [exact Hs' | constructor].
Qed.

Hypothesis Hkeep : _keep_separator sp = true.

Lemma split_with_bound separator recur text :
  recur_ok recur (_split_text_with_regex text separator true) →
  ∃ out, split_with sp separator recur text = Ok out ∧ bounded out.
Proof.
  intros Hrec. unfold split_with. rewrite Hkeep.
  apply chunks_loop_bound; [exact Hrec | constructor | constructor].
Qed.

Lemma split_chars_bound text :
  ∃ out, split_with sp "" None text = Ok out ∧ bounded out.
Proof.
  apply split_with_bound. simpl. unfold _split_text_with_regex. simpl.
  apply Forall_forall. intros c Hc.
  apply list_elem_of_filter in Hc as [_ Hc].
  pose proof (chars_len text) as Hall.
  rewrite Forall_forall in Hall. rewrite (Hall c Hc). exact Hsize.
Qed.

Lemma _split_text_bound separators :
  List.last separators "" = "" →
  ∀ text, ∃ out, _split_text sp separators "" text = Ok out ∧ bounded out.
Proof.
  induction separators as [|_s rest IH]; intros Hlast text.
  - simpl. apply split_chars_bound.
  - cbn [_split_text]. destruct (String.eqb_spec _s "") as [-> | Hne].
    + apply split_chars_bound.
    + assert (Hrest : List.last rest "" = "").
      { destruct rest; [simpl in Hlast; congruence | exact Hlast]. }
      destruct (occurs _s text).
      * apply split_with_bound.
        destruct rest as [|s' rest']; [simpl in Hlast; congruence |].
        simpl. intros s. now apply IH.
      * now apply IH.
Qed.

End Splitter.

(** ** The splitter: what it can raise *)

Section SplitterErrors.
Import langchain.
Variable sp : TextSplitter.







End SplitterErrors.

Section SplitText.
Import langchain admin.

Lemma split_documents_bound sp pages :
  1 ≤ _chunk_size sp → 0 ≤ _chunk_overlap sp → _keep_separator sp = true →
  List.last (_separators sp) "" = "" →
  ∃ docs, split_documents sp pages = Ok docs
          ∧ Forall (fun d => len (page_content d) ≤ _chunk_size sp) docs.
Proof.
  intros Hsize Hoverlap Hkeep Hlast. induction pages as [|doc pages IH].
  - exists []. split; [reflexivity | constructor].
  - destruct IH as (rest & Hrest & Hbound).
    cbn [split_documents]. unfold langchain.split_text. rewrite Hlast.
    destruct (_split_text_bound sp Hsize Hoverlap Hkeep (_separators sp) Hlast
                (page_content doc)) as (chunks & Hchunks & Hb).
    rewrite Hchunks, Hrest. simpl. eexists. split; [reflexivity |].
    apply Forall_app; split; [| exact Hbound].
    apply Forall_fmap. exact Hb.
Qed.

(** C1. For every page sequence and every configuration with
    [chunk_size > overlap >= 0], [split_text] returns, and every fragment
    it returns has length at most [chunk_size]. *)
Theorem split_text_fragment_length (pages : list Document)
    (chunk_size overlap : Z) (w : World) :
  0 ≤ overlap → overlap < chunk_size →
  ∃ docs, split_text pages chunk_size overlap w = (Ok docs, w)
          ∧ Forall (fun d => len (page_content d) ≤ chunk_size) docs.
Proof.
  intros H0 Hlt. unfold split_text, eval, RecursiveCharacterTextSplitter, TextSplitter_init.
  replace (overlap >? chunk_size) with false by (symmetry; apply gtb_false; lia).
  simpl.
  match goal with
  | |- context [split_documents ?sp pages] =>
      destruct (split_documents_bound sp pages) as (docs & Heq & Hb);
        [simpl; lia | simpl; lia | reflexivity | reflexivity |]
  end.
  rewrite Heq. exists docs. split; [reflexivity | exact Hb].
Qed.

Lemma split_text_fragment_length_witness :
  ∃ docs,
    split_text [mkDocument "hello world foo bar baz quux" []] 10 3 empty_world
      = (Ok docs, empty_world)
    ∧ Forall (fun d => len (page_content d) ≤ 10) docs.
Proof. apply split_text_fragment_length; lia. Defined.




End SplitText.

(** ** Paths *)

Lemma list_ascii_of_string_app (a b : string) :
  list_ascii_of_string (a +:+ b) = list_ascii_of_string a ++ list_ascii_of_string b.
Proof. induction a as [|c a IH]; simpl; [reflexivity | now rewrite IH]. Qed.

Lemma append_inj_r (a b t : string) : a +:+ t = b +:+ t → a = b.
Proof.
  intros H. apply (f_equal list_ascii_of_string) in H.
  rewrite !list_ascii_of_string_app in H. apply app_inv_tail in H.
  apply (f_equal string_of_list_ascii) in H.
  now rewrite !string_of_list_ascii_of_string in H.
Qed.

(** Two strings that end in different characters differ. *)
Ltac differ_at_end H :=
  apply (f_equal (fun x => rev (list_ascii_of_string x))) in H;
  rewrite !list_ascii_of_string_app, !rev_app_distr in H;
  simpl in H; congruence.

Lemma staging_faiss_pkl (r1 r2 : string) :
  staging_path r1 ".faiss" ≠ staging_path r2 ".pkl".
Proof. unfold staging_path. intros H. differ_at_end H. Qed.

Lemma staging_path_inj (r1 r2 ext : string) :
  staging_path r1 ext = staging_path r2 ext → r1 = r2.
Proof.
  unfold staging_path. intros H.
  apply (inj (String.append "/tmp/")) in H.
  apply append_inj_r in H. now apply append_inj_r in H.
Qed.

Lemma staging_faiss_not_pdf (r1 r2 : string) :
  staging_path r1 ".faiss" ≠ r2 +:+ ".pdf".
Proof. unfold staging_path. intros H. differ_at_end H. Qed.

Lemma staging_pkl_not_pdf (r1 r2 : string) :
  staging_path r1 ".pkl" ≠ r2 +:+ ".pdf".
Proof. unfold staging_path. intros H. differ_at_end H. Qed.

(** ** The runs of [create_vector_store] *)

Section CreateVectorStore.
Import langchain admin.
Variable E : Env.

Lemma staged_both_index (request_id : string) (i d : bytes) (m : gmap string bytes) :
  <[staging_path request_id ".pkl" := d]> (<[staging_path request_id ".faiss" := i]> m)
    !! staging_path request_id ".faiss" = Some i.
Proof.
  rewrite lookup_insert_ne by (intros H; symmetry in H; now apply staging_faiss_pkl in H).
  apply lookup_insert_eq.
Qed.

Lemma create_vector_store_run G request_id documents w :
  ∃ b w', create_vector_store E G request_id documents w = (Ok b, w')
          ∧ cvs_run E G request_id documents w b w'.
Proof.
  unfold create_vector_store.
  destruct (bedrock_embeddings G) as [emb|] eqn:Hemb.
  2:{ eexists _, _. split; [reflexivity | now constructor]. }
  unfold try_except, FAISS_from_documents', save_local, upload_file, invoke,
    st, mbind, M_bind, mret, M_ret.
  fold (staging_path request_id ".faiss"). fold (staging_path request_id ".pkl").
  destruct (FAISS_from_documents E documents emb) as [vs|e] eqn:Hbuild.
  2:{ eexists _, _. split; [reflexivity | eapply run_build_failed; eassumption]. }
  destruct (write_fault E (staging_path request_id ".faiss")) as [e|] eqn:Hw1.
  { eexists _, _. split; [reflexivity | eapply run_index_not_staged; eassumption]. }
  destruct (write_fault E (staging_path request_id ".pkl")) as [e|] eqn:Hw2.
  { eexists _, _. split; [reflexivity | eapply run_docstore_not_staged; eassumption]. }
  destruct (BUCKET_NAME G) as [b|] eqn:Hb.
  2:{ eexists _, _. split; [reflexivity | eapply run_no_bucket; eassumption]. }
  cbn. rewrite staged_both_index.
  destruct (upload_fault E (uploads w)) as [e|] eqn:Hu1.
  { eexists _, _. split; [reflexivity | eapply run_index_not_uploaded; eassumption]. }
  cbn. rewrite lookup_insert_eq.
  destruct (upload_fault E (S (uploads w))) as [e|] eqn:Hu2.
  { eexists _, _. split; [reflexivity | eapply run_docstore_not_uploaded; eassumption]. }
  eexists _, _. split; [reflexivity | eapply run_published; eassumption].
Qed.

End CreateVectorStore.

Section Publication.
Import langchain admin.
Variable E : Env.

(** The calls a run has added, read off the world it leaves. *)
Ltac added_calls :=
  unfold new_calls, reported, stored, upload_attempt, saved, staged, built;
  cbn [calls record render set_fs set_s3 next_upload];
  rewrite <- ?app_assoc; cbn [app];
  rewrite ?drop_app_length, ?drop_all.

Ltac not_among H :=
  rewrite ?elem_of_cons, ?elem_of_nil in H; intuition congruence.

(** C9. [create_vector_store] always returns a boolean and never raises;
    the boolean is [True] exactly when the index was built and both
    payloads were uploaded, and [False] otherwise. *)
Theorem create_vector_store_returns_bool (G : Globals) (request_id : string)
    (documents : list Document) (w : World) :
  ∃ (b : bool) (w' : World),
    create_vector_store E G request_id documents w = (Ok b, w')
    ∧ (b = true ↔
       ∃ emb,
         (FAISS_from_documents_call documents emb, true) ∈ new_calls w w'
         ∧ (s3_upload_file (staging_path request_id ".faiss") (BUCKET_NAME G)
              "my_faiss.faiss", true) ∈ new_calls w w'
         ∧ (s3_upload_file (staging_path request_id ".pkl") (BUCKET_NAME G)
              "my_faiss.pkl", true) ∈ new_calls w w').
Proof.
  destruct (create_vector_store_run E G request_id documents w) as (b & w' & Heq & Hrun).
  exists b, w'. split; [exact Heq |].
  destruct Hrun; added_calls.
  8:{ split; [intros _ | reflexivity]. exists emb.
      rewrite !elem_of_cons.
      match goal with H : BUCKET_NAME G = _ |- _ => rewrite H end. tauto. }
  all: split; [discriminate | intros (emb' & Hbuilt & Hindex & Hdocstore); exfalso].
  all: try (not_among Hbuilt); try (not_among Hdocstore).
Qed.

Lemma create_vector_store_published (G : Globals) (request_id : string)
    (documents : list Document) (w w' : World) :
  create_vector_store E G request_id documents w = (Ok true, w') →
  ∃ emb vs b,
    bedrock_embeddings G = Some emb
    ∧ FAISS_from_documents E documents emb = Ok vs
    ∧ BUCKET_NAME G = Some b
    ∧ w' = stored b "my_faiss.pkl" (docstore_payload vs)
             (upload_attempt request_id ".pkl" (Some b) "my_faiss.pkl" true
                (stored b "my_faiss.faiss" (index_payload vs)
                   (upload_attempt request_id ".faiss" (Some b) "my_faiss.faiss" true
                      (saved request_id true
                         (staged request_id ".pkl" (docstore_payload vs)
                            (staged request_id ".faiss" (index_payload vs)
                               (built documents emb true w))))))).
Proof.
  intros Hret.
  destruct (create_vector_store_run E G request_id documents w) as (b & w1 & Heq & Hrun).
  rewrite Hret in Heq. injection Heq as <- <-.
  inversion Hrun; subst. eauto 10.
Qed.

(** C8. The index is first written to local files whose names are built
    from the request id, so that the files of two different requests are
    different files, and only then are the two files uploaded.  In every
    run the calls made are an initial part of "build, save_local, upload
    the index, upload the docstore", and an upload is made only after
    [save_local] has returned.  Whenever the index is built and the local
    writes do not fail, [save_local] is the call that follows the build,
    the two staging files of the request hold the payloads of the index
    that was built, an upload that returns has put the payload of its
    staging file under its publication key, and when the bucket is set
    and no upload fails all four calls return and the result is [True]. *)
Theorem staged_under_request_id_then_uploaded (G : Globals)
    (request_id : string) (documents : list Document) (w : World) :
  (∀ other ext ext',
      ext ∈ [".faiss"; ".pkl"] → ext' ∈ [".faiss"; ".pkl"] →
      staging_path request_id ext = staging_path other ext' →
      other = request_id)
  ∧ ∃ (b : bool) (w' : World),
      create_vector_store E G request_id documents w = (Ok b, w')
      ∧ map fst (new_calls w w') `prefix_of` publication_calls G request_id documents
      ∧ (∀ Filename Bucket Key ok,
            (s3_upload_file Filename Bucket Key, ok) ∈ new_calls w w' →
            (FAISS_save_local (request_id +:+ ".bin") "/tmp/", true) ∈ new_calls w w')
      ∧ (∀ emb vs,
            bedrock_embeddings G = Some emb →
            FAISS_from_documents E documents emb = Ok vs →
            write_fault E (staging_path request_id ".faiss") = None →
            write_fault E (staging_path request_id ".pkl") = None →
            take 2 (new_calls w w')
            = [(FAISS_from_documents_call documents emb, true);
               (FAISS_save_local (request_id +:+ ".bin") "/tmp/", true)]
            ∧ fs w' !! staging_path request_id ".faiss" = Some (index_payload vs)
            ∧ fs w' !! staging_path request_id ".pkl" = Some (docstore_payload vs)
            ∧ (∀ bucket,
                  (s3_upload_file (staging_path request_id ".faiss") (Some bucket)
                     "my_faiss.faiss", true) ∈ new_calls w w' →
                  s3 w' !! (bucket, "my_faiss.faiss") = Some (index_payload vs))
            ∧ (∀ bucket,
                  (s3_upload_file (staging_path request_id ".pkl") (Some bucket)
                     "my_faiss.pkl", true) ∈ new_calls w w' →
                  s3 w' !! (bucket, "my_faiss.pkl") = Some (docstore_payload vs))
            ∧ (∀ bucket,
                  BUCKET_NAME G = Some bucket →
                  upload_fault E (uploads w) = None →
                  upload_fault E (S (uploads w)) = None →
                  b = true
                  ∧ new_calls w w'
                    = map (fun c => (c, true))
                        (publication_calls G request_id documents))).
Proof.
  split.
  - intros other ext ext' Hext Hext' Heq.
    rewrite !elem_of_cons, elem_of_nil in Hext, Hext'.
    destruct Hext as [-> | [-> | []]]; destruct Hext' as [-> | [-> | []]].
    + symmetry. now apply staging_path_inj in Heq.
    + now apply staging_faiss_pkl in Heq.
    + symmetry in Heq. now apply staging_faiss_pkl in Heq.
    + symmetry. now apply staging_path_inj in Heq.
  - destruct (create_vector_store_run E G request_id documents w) as (b & w' & Heq & Hrun).
    exists b, w'. split; [exact Heq |].
    unfold publication_calls.
    destruct Hrun; added_calls;
      (split;
       [repeat match goal with
               | H : bedrock_embeddings _ = _ |- _ => rewrite H
               | H : BUCKET_NAME _ = _ |- _ => rewrite H
               end; eexists; reflexivity |]);
      (split;
       [intros Filename Bucket Key ok Hin;
        rewrite ?elem_of_cons, ?elem_of_nil in Hin |- *; intuition congruence |]);
      intros emb' vs' Hemb' Hbuild' Hw1' Hw2'; try congruence;
      (assert (emb' = emb) as -> by congruence);
      (assert (vs' = vs) as -> by congruence);
      (split; [reflexivity |]);
      unfold reported, stored, upload_attempt, saved, staged, built;
      cbn [fs s3 uploads record render set_fs set_s3 next_upload];
      (split; [apply staged_both_index |]);
      (split; [apply lookup_insert_eq |]);
      (split;
       [intros bucket Hin; rewrite ?elem_of_cons, ?elem_of_nil in Hin;
        first [solve [exfalso; intuition congruence]
              | assert (bucket = b) as -> by (intuition congruence);
                rewrite ?(lookup_insert_ne _ (b, "my_faiss.pkl")) by congruence;
                apply lookup_insert_eq] |]);
      (split;
       [intros bucket Hin; rewrite ?elem_of_cons, ?elem_of_nil in Hin;
        first [solve [exfalso; intuition congruence]
              | assert (bucket = b) as -> by (intuition congruence);
                apply lookup_insert_eq] |]);
      intros bucket Hbucket Hu1 Hu2; try congruence.
    assert (bucket = b) as -> by congruence.
    rewrite Hemb', Hbucket. split; reflexivity.
Qed.

(** C4. The storage keys do not depend on the request: two successful
    publications, whatever their request ids, write the same two keys of
    the bucket, and the second replaces what the first stored there. *)
Theorem publication_key_is_fixed (G : Globals) (request_id1 request_id2 : string)
    (documents1 documents2 : list Document) (w w1 w2 : World) :
  create_vector_store E G request_id1 documents1 w = (Ok true, w1) →
  create_vector_store E G request_id2 documents2 w1 = (Ok true, w2) →
  ∃ bucket emb vs1 vs2,
    BUCKET_NAME G = Some bucket
    ∧ FAISS_from_documents E documents1 emb = Ok vs1
    ∧ FAISS_from_documents E documents2 emb = Ok vs2
    ∧ s3 w1 = <[(bucket, "my_faiss.pkl") := docstore_payload vs1]>
                (<[(bucket, "my_faiss.faiss") := index_payload vs1]> (s3 w))
    ∧ s3 w2 = <[(bucket, "my_faiss.pkl") := docstore_payload vs2]>
                (<[(bucket, "my_faiss.faiss") := index_payload vs2]> (s3 w)).
Proof.
  intros Hfirst Hsecond.
  apply create_vector_store_published in Hfirst
    as (emb & vs1 & b & Hemb & Hbuild1 & Hb & ->).
  apply create_vector_store_published in Hsecond
    as (emb' & vs2 & b' & Hemb' & Hbuild2 & Hb' & ->).
  assert (emb' = emb) as -> by congruence.
  assert (b' = b) as -> by congruence.
  exists b, emb, vs1, vs2.
  split; [exact Hb |]. split; [exact Hbuild1 |]. split; [exact Hbuild2 |].
  split; [reflexivity |].
  unfold stored, upload_attempt, saved, staged, built.
  cbn [s3 record render set_fs set_s3 next_upload].
  apply map_eq. intros k.
  destruct (decide (k = (b, "my_faiss.pkl"))) as [-> | Hk1].
  { now rewrite !lookup_insert_eq. }
  rewrite !(lookup_insert_ne _ (b, "my_faiss.pkl")) by congruence.
  destruct (decide (k = (b, "my_faiss.faiss"))) as [-> | Hk2].
  { now rewrite !lookup_insert_eq. }
  repeat (rewrite lookup_insert_ne by congruence). reflexivity.
Qed.

(** C3, amended. When the second upload fails after the first succeeded,
    the caller is told so ([st.error], [False]), but nothing is rolled
    back: the index payload of this request stays under [my_faiss.faiss]
    and [my_faiss.pkl] keeps what it held before, so an availability check
    finds a complete artifact exactly when an earlier publication had left
    its docstore there. *)
Theorem second_upload_failure_is_not_rolled_back (G : Globals)
    (request_id : string) (documents : list Document) (w : World)
    (emb : Embeddings) (vs : VectorStore) (bucket : string) (e : exn) :
  bedrock_embeddings G = Some emb →
  FAISS_from_documents E documents emb = Ok vs →
  write_fault E (staging_path request_id ".faiss") = None →
  write_fault E (staging_path request_id ".pkl") = None →
  BUCKET_NAME G = Some bucket →
  upload_fault E (uploads w) = None →
  upload_fault E (S (uploads w)) = Some e →
  ∃ w', create_vector_store E G request_id documents w = (Ok false, w')
        ∧ ui w' = ui w ++ [st_error ("Error creating vector store: " +:+ exn_msg e)]
        ∧ s3 w' = <[(bucket, "my_faiss.faiss") := index_payload vs]> (s3 w)
        ∧ (fully_published bucket w' ↔ is_Some (s3 w !! (bucket, "my_faiss.pkl"))).
Proof.
  intros Hemb Hbuild Hw1 Hw2 Hb Hu1 Hu2.
  destruct (create_vector_store_run E G request_id documents w) as (b & w' & Heq & Hrun).
  destruct Hrun; try congruence.
  assert (emb0 = emb) as -> by congruence.
  assert (vs0 = vs) as -> by congruence.
  assert (b = bucket) as -> by congruence.
  assert (e0 = e) as -> by congruence.
  eexists. split; [exact Heq |].
  unfold fully_published, reported, stored, upload_attempt, saved, staged, built.
  cbn [ui s3 record render set_fs set_s3 next_upload].
  split; [reflexivity |]. split; [reflexivity |].
  rewrite lookup_insert_eq, lookup_insert_ne by congruence.
  split; [tauto | eauto].
Qed.

End Publication.

Section PublicationExercised.
Import langchain admin.

Lemma publication_key_is_fixed_witness :
  ∃ bucket emb vs1 vs2,
    BUCKET_NAME ready = Some bucket
    ∧ FAISS_from_documents (exercise true [] None) two_fragments emb = Ok vs1
    ∧ FAISS_from_documents (exercise true [] None) one_fragment emb = Ok vs2
    ∧ s3 (earlier_publication (exercise true [] None))
      = <[(bucket, "my_faiss.pkl") := docstore_payload vs1]>
          (<[(bucket, "my_faiss.faiss") := index_payload vs1]> (s3 empty_world))
    ∧ s3 (snd (create_vector_store (exercise true [] None) ready "b" one_fragment
                 (earlier_publication (exercise true [] None))))
      = <[(bucket, "my_faiss.pkl") := docstore_payload vs2]>
          (<[(bucket, "my_faiss.faiss") := index_payload vs2]> (s3 empty_world)).
Proof.
  apply (publication_key_is_fixed (exercise true [] None) ready "a" "b"
           two_fragments one_fragment);
    vm_compute; reflexivity.
Defined.

(** C3 fails as stated: request [a] is published, then the second upload
    of request [b] fails; the caller gets [False], and yet the store holds
    both payloads, the index of [b] next to the docstore of [a]. *)
Lemma failed_publication_still_fully_published :
  let E := exercise true [] (Some 3%nat) in
  let run := create_vector_store E ready "b" one_fragment (earlier_publication E) in
  fst (create_vector_store E ready "a" two_fragments empty_world) = Ok true
  ∧ fst run = Ok false
  ∧ fully_published "bucket" (snd run)
  ∧ s3 (snd run) !! ("bucket", "my_faiss.faiss") = Some [Byte.x01]
  ∧ s3 (snd run) !! ("bucket", "my_faiss.pkl") = Some [Byte.x02; Byte.x02].
Proof.
  cbv zeta. unfold fully_published.
  repeat split; try (vm_compute; reflexivity); vm_compute; eauto.
Qed.

Lemma second_upload_failure_is_not_rolled_back_witness :
  let E := exercise true [] (Some 3%nat) in
  ∃ w', create_vector_store E ready "b" one_fragment (earlier_publication E)
          = (Ok false, w')
        ∧ ui w' = ui (earlier_publication E)
                  ++ [st_error ("Error creating vector store: " +:+
                                "An error occurred (500)")]
        ∧ s3 w' = <[("bucket", "my_faiss.faiss") := [Byte.x01]]>
                    (s3 (earlier_publication E))
        ∧ (fully_published "bucket" w'
           ↔ is_Some (s3 (earlier_publication E) !! ("bucket", "my_faiss.pkl"))).
Proof.
  apply (second_upload_failure_is_not_rolled_back (exercise true [] (Some 3%nat))
           ready "b" one_fragment (earlier_publication (exercise true [] (Some 3%nat)))
           (mkEmbeddings "amazon.titan-embed-text-v1")
           (mkVectorStore [Byte.x01] [Byte.x02]) "bucket"
           (Exn "ClientError" "An error occurred (500)"));
    reflexivity.
Defined.

Lemma staged_under_request_id_then_uploaded_witness :
  ∃ w', create_vector_store (exercise true [] None) ready "a" two_fragments empty_world
        = (Ok true, w')
        ∧ new_calls empty_world w'
          = map (fun c => (c, true)) (publication_calls ready "a" two_fragments)
        ∧ fs w' !! staging_path "a" ".faiss" = Some [Byte.x01; Byte.x01]
        ∧ fs w' !! staging_path "a" ".pkl" = Some [Byte.x02; Byte.x02]
        ∧ s3 w' !! ("bucket", "my_faiss.faiss") = Some [Byte.x01; Byte.x01]
        ∧ s3 w' !! ("bucket", "my_faiss.pkl") = Some [Byte.x02; Byte.x02].
Proof.
  destruct (staged_under_request_id_then_uploaded (exercise true [] None) ready "a"
              two_fragments empty_world)
    as (_ & b & w' & Hrun & _ & _ & Hbuilt).
  destruct (Hbuilt (mkEmbeddings "amazon.titan-embed-text-v1")
              (mkVectorStore [Byte.x01; Byte.x01] [Byte.x02; Byte.x02])
              eq_refl eq_refl eq_refl eq_refl)
    as (_ & Hindex & Hdocstore & Hup1 & Hup2 & Hall).
  destruct (Hall "bucket" eq_refl eq_refl eq_refl) as (-> & Hcalls).
  exists w'. split; [exact Hrun |]. split; [exact Hcalls |].
  split; [exact Hindex |]. split; [exact Hdocstore |].
  split; [apply Hup1 | apply Hup2]; rewrite Hcalls; cbn;
    rewrite !elem_of_cons; tauto.
Defined.

End PublicationExercised.

(** ** The runs of [main] *)

Section Main.
Import langchain admin.
Variable E : Env.

Lemma split_text_eval (pages : list Document) (chunk_size overlap : Z) (w : World) :
  split_text pages chunk_size overlap w = (split_result pages chunk_size overlap, w).
Proof. reflexivity. Qed.

Lemma main_runs (G : Globals) (data : bytes) (w : World) :
  ∃ w', main E G (Some data) w = (Ok (), w')
        ∧ main_run E G data w (uuid4 E (uuids w)) w'.
Proof.
  unfold main, try_except, get_unique_uuid, write_file, PyPDFLoader, getitem,
    invoke, st, mbind, M_bind, mret, M_ret, mthrow, M_throw.
  cbn [uuids render record next_uuid].
  set (request_id := uuid4 E (uuids w)).
  destruct (write_fault E (request_id +:+ ".pdf")) as [e|] eqn:Hkeep.
  { eexists. split; [reflexivity | eapply run_not_kept; eassumption]. }
  cbn [fs render record set_fs next_uuid]. rewrite lookup_insert_eq.
  destruct (load_and_split E data) as [pages|e] eqn:Hload.
  2:{ eexists. split; [reflexivity | eapply run_not_loaded; eassumption]. }
  rewrite split_text_eval.
  destruct (split_result pages 1000 200) as [docs|e] eqn:Hsplit.
  2:{ eexists. split; [reflexivity | eapply run_not_split; eassumption]. }
  destruct docs as [|d0 [|d1 rest]].
  - eexists. split; [reflexivity | eapply run_no_fragment; eassumption].
  - eexists. split; [reflexivity | eapply run_one_fragment; eassumption].
  - cbn [lookup list_lookup].
    match goal with
    | |- context [create_vector_store E G ?r ?d ?W] =>
        destruct (create_vector_store_run E G r d W) as (b & w' & Heq & Hrun);
          rewrite Heq
    end.
    exists (concluded b w'). split.
    + destruct b; reflexivity.
    + eapply run_indexed; eassumption.
Qed.

Ltac stages :=
  unfold new_calls, concluded, failed, shown_second, shown_first, chunked, counted,
    loaded, kept, identified, greeted, reported, stored, upload_attempt, saved,
    staged, built;
  cbn [fs s3 ui calls record render set_fs set_s3 next_upload next_uuid].

Ltac added :=
  stages; rewrite <- ?app_assoc; cbn [app]; rewrite ?drop_app_length, ?drop_all.

(** Local files other than the two staging files of the request are left
    alone by [create_vector_store]. *)
Lemma create_vector_store_frame (G : Globals) (request_id : string)
    (documents : list Document) (w w' : World) (b : bool) (path : string) :
  cvs_run E G request_id documents w b w' →
  path ≠ staging_path request_id ".faiss" →
  path ≠ staging_path request_id ".pkl" →
  fs w' !! path = fs w !! path.
Proof.
  intros Hrun Hfaiss Hpkl.
  destruct Hrun; stages; rewrite ?lookup_insert_ne by congruence; reflexivity.
Qed.

(** C10. Every upload that [main] gets to process leaves the uploaded
    bytes in the working directory under [<request_id>.pdf]: the file is
    there when [main] is done, however the run ends, and the only other
    files [main] creates or changes are the two staging files of the
    request under [/tmp/]. *)
Theorem main_leaves_uploaded_pdf (G : Globals) (data : bytes) (w : World) :
  write_fault E (uuid4 E (uuids w) +:+ ".pdf") = None →
  fs (snd (main E G (Some data) w)) !! (uuid4 E (uuids w) +:+ ".pdf") = Some data
  ∧ ∀ path,
      fs (snd (main E G (Some data) w)) !! path ≠ fs w !! path →
      path = uuid4 E (uuids w) +:+ ".pdf"
      ∨ path = staging_path (uuid4 E (uuids w)) ".faiss"
      ∨ path = staging_path (uuid4 E (uuids w)) ".pkl".
Proof.
  intros Hkeep.
  destruct (main_runs G data w) as (w' & Heq & Hrun). rewrite Heq. cbn [snd].
  set (request_id := uuid4 E (uuids w)) in *.
  assert (Hframe : ∀ path,
            path ≠ staging_path request_id ".faiss" →
            path ≠ staging_path request_id ".pkl" →
            fs w' !! path = <[request_id +:+ ".pdf" := data]> (fs w) !! path).
  { intros path Hfaiss Hpkl. destruct Hrun; try congruence; stages; try reflexivity.
    match goal with
    | H : cvs_run _ _ _ _ _ _ _ |- _ =>
        rewrite (create_vector_store_frame _ _ _ _ _ _ path H Hfaiss Hpkl)
    end.
    stages. reflexivity. }
  split.
  - rewrite Hframe.
    + apply lookup_insert_eq.
    + intros H. symmetry in H. now apply staging_faiss_not_pdf in H.
    + intros H. symmetry in H. now apply staging_pkl_not_pdf in H.
  - intros path Hchanged.
    destruct (decide (path = staging_path request_id ".faiss")) as [| Hfaiss]; [tauto |].
    destruct (decide (path = staging_path request_id ".pkl")) as [| Hpkl]; [tauto |].
    left. rewrite (Hframe path Hfaiss Hpkl) in Hchanged.
    destruct (decide (path = request_id +:+ ".pdf")) as [| Hpdf]; [assumption |].
    rewrite lookup_insert_ne in Hchanged by congruence. congruence.
Qed.

(** C5 on the code: when the loader finds no page, [main] stops at
    [splitted_docs[0]] with an [IndexError] and reports it as an error;
    neither the index builder nor the publisher is called and the store is
    left as it was. *)
Theorem zero_page_document_is_reported_as_error (G : Globals) (data : bytes)
    (w : World) :
  write_fault E (uuid4 E (uuids w) +:+ ".pdf") = None →
  load_and_split E data = Ok [] →
  ∃ w', main E G (Some data) w = (Ok (), w')
        ∧ ui w' = ui w ++
            [st_title "PDF Document Processing Admin";
             st_write "Upload a PDF document for processing";
             st_write ("Request ID: " +:+ uuid4 E (uuids w));
             st_success "Successfully processed PDF with 0 pages";
             st_write "Total Pages: 0";
             st_write "Splitted Docs len: 0";
             st_write "===============";
             st_error "Error processing file: list index out of range"]
        ∧ Forall (fun c => builds_or_publishes c.1 = false) (new_calls w w')
        ∧ s3 w' = s3 w.
Proof.
  intros Hkeep Hload.
  destruct (main_runs G data w) as (w' & Heq & Hrun).
  exists w'. split; [exact Heq |].
  destruct Hrun as [ | | pages e ? Hload' Hsplit | pages ? Hload' Hsplit
                   | pages d ? Hload' Hsplit | pages d0 d1 rest result w' ? Hload' Hsplit];
    try congruence;
    rewrite Hload in Hload'; injection Hload' as <-; try (vm_compute in Hsplit; congruence).
  added. split; [reflexivity |]. split; [| reflexivity].
  repeat constructor.
Qed.

(** C2. The module body tries the embedding models in order and keeps the
    first that initialises.  When none does, it says so, and from then on
    [create_vector_store] reports the missing embeddings and returns
    [False] without doing anything else: no run of [main] calls the index
    builder or the publisher, writes to the store, or touches a staging
    file. *)
Theorem embedding_selection_and_abort (w : World) :
  ∃ G w1,
    module_body E w = (Ok G, w1)
    ∧ bedrock_embeddings G = first_initialised E model_priority
    ∧ (first_initialised E model_priority = None →
       ui w1 = ui w ++ [st_error "No Bedrock embedding models are available. Please enable model access in AWS Bedrock console."]
       ∧ (∀ request_id documents w2,
             create_vector_store E G request_id documents w2
             = (Ok false,
                render (st_error "Bedrock embeddings not available. Please enable model access in AWS Bedrock console.") w2))
       ∧ (∀ uploaded_file w2,
             Forall (fun c => builds_or_publishes c.1 = false)
               (new_calls w2 (snd (main E G uploaded_file w2)))
             ∧ s3 (snd (main E G uploaded_file w2)) = s3 w2
             ∧ ∀ request_id ext, ext ∈ [".faiss"; ".pkl"] →
                 fs (snd (main E G uploaded_file w2)) !! staging_path request_id ext
                 = fs w2 !! staging_path request_id ext)).
Proof.
  set (G := mkGlobals (getenv_BUCKET_NAME E) (first_initialised E model_priority)).
  assert (Hbody : ∃ w1, module_body E w = (Ok G, w1)
                        ∧ (first_initialised E model_priority = None →
                           ui w1 = ui w ++ [st_error "No Bedrock embedding models are available. Please enable model access in AWS Bedrock console."])).
  { unfold G, module_body, try_except, new_BedrockEmbeddings, invoke, st,
      mbind, M_bind, mret, M_ret. cbn [first_initialised model_priority].
    destruct (BedrockEmbeddings E "amazon.titan-embed-text-v1");
      [eexists; split; [reflexivity | discriminate] |].
    destruct (BedrockEmbeddings E "cohere.embed-english-v3");
      [eexists; split; [reflexivity | discriminate] |].
    eexists; split; [reflexivity | intros _; reflexivity]. }
  destruct Hbody as (w1 & Hbody & Hsaid).
  exists G, w1. split; [exact Hbody |]. split; [reflexivity |].
  intros Hnone. split; [exact (Hsaid Hnone) |].
  assert (HG : bedrock_embeddings G = None) by exact Hnone.
  clearbody G. split.
  - intros request_id documents w2. unfold create_vector_store. rewrite HG. reflexivity.
  - intros [data|] w2.
    2:{ unfold main, st, mbind, M_bind, mret, M_ret. added. repeat split; constructor. }
    destruct (main_runs G data w2) as (w' & Heq & Hrun). rewrite Heq. cbn [snd].
    assert (Hpaths : ∀ request_id r ext (m : gmap string bytes),
               ext ∈ [".faiss"; ".pkl"] →
               <[r +:+ ".pdf" := data]> m !! staging_path request_id ext
               = m !! staging_path request_id ext).
    { intros request_id r ext m Hext. apply lookup_insert_ne.
      rewrite !elem_of_cons, elem_of_nil in Hext. destruct Hext as [-> | [-> | []]].
      - intros H. symmetry in H. now apply staging_faiss_not_pdf in H.
      - intros H. symmetry in H. now apply staging_pkl_not_pdf in H. }
    destruct Hrun as [ | | | | | pages d0 d1 rest result w' ? ? ? Hcvs].
    6:{ destruct Hcvs; try congruence. added.
        split; [repeat constructor |]. split; [reflexivity |].
        intros. now apply Hpaths. }
    all: added; (split; [repeat constructor |]); (split; [reflexivity |]);
      intros; try reflexivity; now apply Hpaths.
Qed.

End Main.

Section MainExercised.
Import langchain admin.

Lemma main_leaves_uploaded_pdf_witness :
  fs (snd (main (exercise true two_fragments None) ready (Some [Byte.x25]) empty_world))
    !! (uuid4 (exercise true two_fragments None) (uuids empty_world) +:+ ".pdf")
  = Some [Byte.x25]
  ∧ ∀ path,
      fs (snd (main (exercise true two_fragments None) ready (Some [Byte.x25]) empty_world))
        !! path ≠ fs empty_world !! path →
      path = uuid4 (exercise true two_fragments None) (uuids empty_world) +:+ ".pdf"
      ∨ path = staging_path (uuid4 (exercise true two_fragments None) (uuids empty_world)) ".faiss"
      ∨ path = staging_path (uuid4 (exercise true two_fragments None) (uuids empty_world)) ".pkl".
Proof.
  apply (main_leaves_uploaded_pdf (exercise true two_fragments None) ready
           [Byte.x25] empty_world).
  reflexivity.
Defined.

Lemma zero_page_document_is_reported_as_error_witness :
  ∃ w', main (exercise true [] None) ready (Some [Byte.x25]) empty_world = (Ok (), w')
        ∧ ui w' = ui empty_world ++
            [st_title "PDF Document Processing Admin";
             st_write "Upload a PDF document for processing";
             st_write ("Request ID: " +:+ uuid4 (exercise true [] None) (uuids empty_world));
             st_success "Successfully processed PDF with 0 pages";
             st_write "Total Pages: 0";
             st_write "Splitted Docs len: 0";
             st_write "===============";
             st_error "Error processing file: list index out of range"]
        ∧ Forall (fun c => builds_or_publishes c.1 = false) (new_calls empty_world w')
        ∧ s3 w' = s3 empty_world.
Proof.
  apply (zero_page_document_is_reported_as_error (exercise true [] None) ready
           [Byte.x25] empty_world); reflexivity.
Defined.

Lemma embedding_selection_and_abort_witness :
  ∃ G w1,
    module_body (exercise false two_fragments None) empty_world = (Ok G, w1)
    ∧ bedrock_embeddings G = None
    ∧ ui w1 = [st_error "No Bedrock embedding models are available. Please enable model access in AWS Bedrock console."]
    ∧ ∀ uploaded_file w2,
        s3 (snd (main (exercise false two_fragments None) G uploaded_file w2)) = s3 w2.
Proof.
  destruct (embedding_selection_and_abort (exercise false two_fragments None) empty_world)
    as (G & w1 & Hbody & Hselected & Habort).
  exists G, w1. split; [exact Hbody |]. split; [exact Hselected |].
  destruct (Habort eq_refl) as (Hsaid & _ & Hmain).
  split; [exact Hsaid |]. intros uploaded_file w2. apply Hmain.
Defined.

End MainExercised.

(** ** Further properties of [create_vector_store] *)

(** The world a run leaves, with its stages laid open. *)
Ltac lay_open :=
  unfold new_calls, concluded, failed, shown_second, shown_first, chunked, counted,
    loaded, kept, identified, greeted, reported, stored, upload_attempt, saved,
    staged, built;
  cbn [admin.fs admin.s3 admin.ui admin.calls admin.uuids admin.uploads
       admin.record admin.render admin.set_fs admin.set_s3 admin.next_upload
       admin.next_uuid].

(** The same, with the calls the run has added worked out. *)
Ltac lay_open_calls :=
  lay_open; rewrite <- ?app_assoc; cbn [app]; rewrite ?drop_app_length, ?drop_all.

Section StoreAndStaging.
Import langchain admin.
Variable E : Env.

(** [create_vector_store] writes to no key of the store other than the two
    publication keys of the configured bucket: an object whose content has
    changed is one of these two. *)
Theorem create_vector_store_writes_only_publication_keys (G : Globals)
    (request_id : string) (documents : list Document) (w : World)
    (k : string * string) :
  s3 (snd (create_vector_store E G request_id documents w)) !! k ≠ s3 w !! k →
  ∃ bucket, BUCKET_NAME G = Some bucket
            ∧ (k = (bucket, "my_faiss.faiss") ∨ k = (bucket, "my_faiss.pkl")).
Proof.
  destruct (create_vector_store_run E G request_id documents w) as (b & w' & Heq & Hrun).
  rewrite Heq. cbn [snd]. intros Hchanged.
  destruct Hrun; lay_open; try (exfalso; apply Hchanged; reflexivity).
  - exists b. split; [assumption |].
    destruct (decide (k = (b, "my_faiss.faiss"))) as [| Hk]; [tauto |].
    exfalso. apply Hchanged. lay_open. now rewrite lookup_insert_ne by congruence.
  - exists b. split; [assumption |].
    destruct (decide (k = (b, "my_faiss.faiss"))) as [| Hk1]; [tauto |].
    destruct (decide (k = (b, "my_faiss.pkl"))) as [| Hk2]; [tauto |].
    exfalso. apply Hchanged. lay_open. now rewrite !lookup_insert_ne by congruence.
Qed.

(** Until the upload of the index has succeeded the store is exactly as it
    was: whatever stops [create_vector_store] before that point (no
    embeddings, a failed build, a failed local write, no bucket, a failed
    first upload) leaves every object in place. *)
Theorem store_untouched_before_first_upload (G : Globals) (request_id : string)
    (documents : list Document) (w : World) :
  s3 (snd (create_vector_store E G request_id documents w)) = s3 w
  ∨ (s3_upload_file (staging_path request_id ".faiss") (BUCKET_NAME G)
       "my_faiss.faiss", true)
    ∈ new_calls w (snd (create_vector_store E G request_id documents w)).
Proof.
  destruct (create_vector_store_run E G request_id documents w) as (b & w' & Heq & Hrun).
  rewrite Heq. cbn [snd].
  destruct Hrun; lay_open_calls; try (left; reflexivity); right;
    match goal with H : BUCKET_NAME G = _ |- _ => rewrite H end;
    rewrite !elem_of_cons; tauto.
Qed.

(** Once [save_local] has written them, the two staging files stay where
    they are, with the payloads of the request, whether the uploads that
    follow succeed or fail: [create_vector_store] never removes them. *)
Theorem staging_files_are_left_behind (G : Globals) (request_id : string)
    (documents : list Document) (w : World) (emb : Embeddings) (vs : VectorStore) :
  bedrock_embeddings G = Some emb →
  FAISS_from_documents E documents emb = Ok vs →
  write_fault E (staging_path request_id ".faiss") = None →
  write_fault E (staging_path request_id ".pkl") = None →
  fs (snd (create_vector_store E G request_id documents w))
    !! staging_path request_id ".faiss" = Some (index_payload vs)
  ∧ fs (snd (create_vector_store E G request_id documents w))
      !! staging_path request_id ".pkl" = Some (docstore_payload vs).
Proof.
  intros Hemb Hbuild Hw1 Hw2.
  destruct (create_vector_store_run E G request_id documents w) as (b & w' & Heq & Hrun).
  rewrite Heq. cbn [snd].
  destruct Hrun; try congruence;
    (assert (vs0 = vs) as -> by congruence);
    lay_open; (split; [apply staged_both_index | apply lookup_insert_eq]).
Qed.

(** When [BUCKET_NAME] is not set, this is noticed only at the first
    upload: the index has been built and both staging files written by
    then, the run returns [False], and the store is left as it was. *)
Theorem missing_bucket_fails_after_build (G : Globals) (request_id : string)
    (documents : list Document) (w : World) (emb : Embeddings) (vs : VectorStore) :
  BUCKET_NAME G = None →
  bedrock_embeddings G = Some emb →
  FAISS_from_documents E documents emb = Ok vs →
  write_fault E (staging_path request_id ".faiss") = None →
  write_fault E (staging_path request_id ".pkl") = None →
  ∃ w', create_vector_store E G request_id documents w = (Ok false, w')
        ∧ new_calls w w'
          = [(FAISS_from_documents_call documents emb, true);
             (FAISS_save_local (request_id +:+ ".bin") "/tmp/", true);
             (s3_upload_file (staging_path request_id ".faiss") None "my_faiss.faiss",
              false)]
        ∧ s3 w' = s3 w
        ∧ uploads w' = S (uploads w).
Proof.
  intros Hb Hemb Hbuild Hw1 Hw2.
  destruct (create_vector_store_run E G request_id documents w) as (b & w' & Heq & Hrun).
  exists w'. destruct Hrun; try congruence.
  assert (emb0 = emb) as -> by congruence.
  split; [exact Heq |]. lay_open_calls. repeat split.
Qed.

End StoreAndStaging.

Section StoreAndStagingExercised.
Import langchain admin.

Lemma create_vector_store_writes_only_publication_keys_witness :
  ∃ bucket, BUCKET_NAME ready = Some bucket
            ∧ (("bucket", "my_faiss.pkl") = (bucket, "my_faiss.faiss")
               ∨ ("bucket", "my_faiss.pkl") = (bucket, "my_faiss.pkl")).
Proof.
  apply (create_vector_store_writes_only_publication_keys (exercise true [] None)
           ready "a" two_fragments empty_world ("bucket", "my_faiss.pkl")).
  vm_compute. discriminate.
Defined.

Lemma staging_files_are_left_behind_witness :
  fs (snd (create_vector_store (exercise true [] (Some 0%nat)) ready "a"
             two_fragments empty_world))
    !! staging_path "a" ".faiss" = Some [Byte.x01; Byte.x01]
  ∧ fs (snd (create_vector_store (exercise true [] (Some 0%nat)) ready "a"
               two_fragments empty_world))
      !! staging_path "a" ".pkl" = Some [Byte.x02; Byte.x02].
Proof.
  apply (staging_files_are_left_behind (exercise true [] (Some 0%nat)) ready "a"
           two_fragments empty_world (mkEmbeddings "amazon.titan-embed-text-v1")
           (mkVectorStore [Byte.x01; Byte.x01] [Byte.x02; Byte.x02]));
    reflexivity.
Defined.

Lemma missing_bucket_fails_after_build_witness :
  ∃ w', create_vector_store (exercise true [] None)
          (mkGlobals None (Some (mkEmbeddings "amazon.titan-embed-text-v1")))
          "a" two_fragments empty_world = (Ok false, w')
        ∧ new_calls empty_world w'
          = [(FAISS_from_documents_call two_fragments
                (mkEmbeddings "amazon.titan-embed-text-v1"), true);
             (FAISS_save_local ("a" +:+ ".bin") "/tmp/", true);
             (s3_upload_file (staging_path "a" ".faiss") None "my_faiss.faiss", false)]
        ∧ s3 w' = s3 empty_world
        ∧ uploads w' = S (uploads empty_world).
Proof.
  apply (missing_bucket_fails_after_build (exercise true [] None)
           (mkGlobals None (Some (mkEmbeddings "amazon.titan-embed-text-v1")))
           "a" two_fragments empty_world (mkEmbeddings "amazon.titan-embed-text-v1")
           (mkVectorStore [Byte.x01; Byte.x01] [Byte.x02; Byte.x02]));
    reflexivity.
Defined.

End StoreAndStagingExercised.

(** ** Further properties of [main] and of the module body *)

Section Runs.
Import langchain admin.
Variable E : Env.

Lemma main_frame (G : Globals) (data : bytes) (w : World) (path : string) :
  path ≠ uuid4 E (uuids w) +:+ ".pdf" →
  path ≠ staging_path (uuid4 E (uuids w)) ".faiss" →
  path ≠ staging_path (uuid4 E (uuids w)) ".pkl" →
  fs (snd (main E G (Some data) w)) !! path = fs w !! path.
Proof.
  intros Hpdf Hfaiss Hpkl.
  destruct (main_runs E G data w) as (w' & Heq & Hrun). rewrite Heq. cbn [snd].
  destruct Hrun; lay_open; rewrite ?lookup_insert_ne by congruence; try reflexivity.
  match goal with
  | H : cvs_run _ _ _ _ _ _ _ |- _ =>
      rewrite (create_vector_store_frame E _ _ _ _ _ _ path H Hfaiss Hpkl)
  end.
  lay_open. now rewrite lookup_insert_ne by congruence.
Qed.

Lemma cvs_run_uuids (G : Globals) (request_id : string) (documents : list Document)
    (w w' : World) (b : bool) :
  cvs_run E G request_id documents w b w' → uuids w' = uuids w.
Proof. intros Hrun. destruct Hrun; reflexivity. Qed.

Lemma main_uuids (G : Globals) (data : bytes) (w : World) :
  uuids (snd (main E G (Some data) w)) = S (uuids w).
Proof.
  destruct (main_runs E G data w) as (w' & Heq & Hrun). rewrite Heq. cbn [snd].
  destruct Hrun; lay_open; try reflexivity.
  match goal with
  | H : cvs_run _ _ _ _ _ _ _ |- _ => rewrite (cvs_run_uuids _ _ _ _ _ _ H)
  end.
  reflexivity.
Qed.

Lemma cvs_run_without_fault (G : Globals) (request_id : string)
    (documents : list Document) (w w' : World) (result : bool)
    (emb : Embeddings) (vs : VectorStore) (bucket : string) :
  cvs_run E G request_id documents w result w' →
  bedrock_embeddings G = Some emb →
  FAISS_from_documents E documents emb = Ok vs →
  write_fault E (staging_path request_id ".faiss") = None →
  write_fault E (staging_path request_id ".pkl") = None →
  BUCKET_NAME G = Some bucket →
  upload_fault E (uploads w) = None →
  upload_fault E (S (uploads w)) = None →
  result = true
  ∧ w' = stored bucket "my_faiss.pkl" (docstore_payload vs)
           (upload_attempt request_id ".pkl" (Some bucket) "my_faiss.pkl" true
              (stored bucket "my_faiss.faiss" (index_payload vs)
                 (upload_attempt request_id ".faiss" (Some bucket) "my_faiss.faiss" true
                    (saved request_id true
                       (staged request_id ".pkl" (docstore_payload vs)
                          (staged request_id ".faiss" (index_payload vs)
                             (built documents emb true w))))))).
Proof.
  intros Hrun Hemb Hbuild Hw1 Hw2 Hb Hu1 Hu2.
  destruct Hrun; try congruence.
  assert (emb0 = emb) as -> by congruence.
  assert (vs0 = vs) as -> by congruence.
  assert (b = bucket) as -> by congruence.
  split; reflexivity.
Qed.

(** [main] never raises: whatever goes wrong after the upload is caught,
    and the page always ends with a verdict, either the error that stopped
    the run or the outcome of [create_vector_store]; without an upload it
    shows the title and the prompt and does nothing else. *)
Theorem main_always_ends_with_a_verdict (G : Globals)
    (uploaded_file : option bytes) (w : World) :
  ∃ w', main E G uploaded_file w = (Ok (), w')
        ∧ match uploaded_file with
          | None =>
              w' = greeted w
          | Some _ =>
              (∃ e, last (ui w') = Some (st_error ("Error processing file: " +:+ exn_msg e)))
              ∨ (last (ui w') = Some (st_write "yey!! PDF processed successfully")
                 ∧ s3_upload_file (staging_path (uuid4 E (uuids w)) ".pkl")
                     (BUCKET_NAME G) "my_faiss.pkl" ∈ (new_calls w w').*1)
              ∨ (last (ui w') = Some (st_write "Error!! Please check again")
                 ∧ ∃ msg, st_error msg ∈ ui w')
          end.
Proof.
  destruct uploaded_file as [data|]; [| eexists; split; reflexivity].
  destruct (main_runs E G data w) as (w' & Heq & Hrun).
  exists w'. split; [exact Heq |].
  destruct Hrun as [ | | | | | pages d0 d1 rest result w' ? ? ? Hcvs];
    try (left; eexists; unfold failed; cbn [ui render]; apply last_snoc).
  right. destruct Hcvs.
  8:{ left. split; [unfold concluded; cbn [ui render]; apply last_snoc |].
      lay_open_calls.
      match goal with H : BUCKET_NAME G = _ |- _ => rewrite H end.
      cbn. rewrite !elem_of_cons. tauto. }
  all: right; (split; [unfold concluded; cbn [ui render]; apply last_snoc |]);
    eexists; lay_open; rewrite !elem_of_app, !list_elem_of_singleton; eauto 10.
Qed.

(** A document that yields fewer than two fragments is never indexed:
    [main] stops at [splitted_docs[0]] or [splitted_docs[1]] with an
    [IndexError], reports it, and neither the index builder nor the
    publisher is called; only the copy of the upload has been written. *)
Theorem fewer_than_two_fragments_are_never_indexed (G : Globals) (data : bytes)
    (w : World) (pages splitted_docs : list Document) :
  write_fault E (uuid4 E (uuids w) +:+ ".pdf") = None →
  load_and_split E data = Ok pages →
  split_result pages 1000 200 = Ok splitted_docs →
  (length splitted_docs < 2)%nat →
  ∃ w', main E G (Some data) w = (Ok (), w')
        ∧ last (ui w') = Some (st_error "Error processing file: list index out of range")
        ∧ Forall (fun c => builds_or_publishes c.1 = false) (new_calls w w')
        ∧ s3 w' = s3 w
        ∧ fs w' = <[uuid4 E (uuids w) +:+ ".pdf" := data]> (fs w).
Proof.
  intros Hkeep Hload Hsplit Hshort.
  destruct (main_runs E G data w) as (w' & Heq & Hrun).
  exists w'. split; [exact Heq |].
  destruct Hrun as [ | | pages' e ? Hload' Hsplit' | pages' ? Hload' Hsplit'
                   | pages' d ? Hload' Hsplit'
                   | pages' d0 d1 rest result w' ? Hload' Hsplit'];
    try congruence;
    rewrite Hload in Hload'; injection Hload' as <-;
    rewrite Hsplit in Hsplit'; try discriminate; injection Hsplit' as ->;
    try (simpl in Hshort; lia).
  all: split; [unfold failed; cbn [ui render]; apply last_snoc |];
    lay_open_calls; split; [repeat constructor |]; split; reflexivity.
Qed.

(** When nothing fails and there are at least two fragments, [main]
    publishes: the store holds the two payloads of the index built from
    the fragments of the upload, the copy of the upload and the two staging
    files are on disk, and the page ends with the success message. *)
Theorem main_publishes_the_index (G : Globals) (data : bytes) (w : World)
    (pages : list Document) (d0 d1 : Document) (rest : list Document)
    (emb : Embeddings) (vs : VectorStore) (bucket : string) :
  write_fault E (uuid4 E (uuids w) +:+ ".pdf") = None →
  load_and_split E data = Ok pages →
  split_result pages 1000 200 = Ok (d0 :: d1 :: rest) →
  bedrock_embeddings G = Some emb →
  FAISS_from_documents E (d0 :: d1 :: rest) emb = Ok vs →
  write_fault E (staging_path (uuid4 E (uuids w)) ".faiss") = None →
  write_fault E (staging_path (uuid4 E (uuids w)) ".pkl") = None →
  BUCKET_NAME G = Some bucket →
  upload_fault E (uploads w) = None →
  upload_fault E (S (uploads w)) = None →
  ∃ w', main E G (Some data) w = (Ok (), w')
        ∧ last (ui w') = Some (st_write "yey!! PDF processed successfully")
        ∧ s3 w' = <[(bucket, "my_faiss.pkl") := docstore_payload vs]>
                    (<[(bucket, "my_faiss.faiss") := index_payload vs]> (s3 w))
        ∧ fs w' = <[staging_path (uuid4 E (uuids w)) ".pkl" := docstore_payload vs]>
                    (<[staging_path (uuid4 E (uuids w)) ".faiss" := index_payload vs]>
                       (<[uuid4 E (uuids w) +:+ ".pdf" := data]> (fs w))).
Proof.
  intros Hkeep Hload Hsplit Hemb Hbuild Hw1 Hw2 Hb Hu1 Hu2.
  destruct (main_runs E G data w) as (w' & Heq & Hrun).
  exists w'. split; [exact Heq |].
  destruct Hrun as [ | | pages' e ? Hload' Hsplit' | pages' ? Hload' Hsplit'
                   | pages' d ? Hload' Hsplit'
                   | pages' d0' d1' rest' result w' ? Hload' Hsplit' Hcvs];
    try congruence;
    rewrite Hload in Hload'; injection Hload' as <-;
    rewrite Hsplit in Hsplit'; try discriminate.
  injection Hsplit' as <- <- <-.
  apply (cvs_run_without_fault _ _ _ _ _ _ emb vs bucket) in Hcvs
    as [-> ->]; try assumption.
  split; [unfold concluded; cbn [ui render]; apply last_snoc |].
  lay_open. split; reflexivity.
Qed.

(** The module level raises exactly when one of its two clients cannot be
    constructed, and then nothing else has run: no embedding client has
    been tried and nothing is rendered.  Otherwise it does not raise, takes
    the bucket name from the environment, leaves files and store alone,
    and constructs the second embedding client only after the first has
    failed: when Titan initialises, Cohere is not tried. *)
Theorem module_level_tries_cohere_only_after_titan (w : World) :
  match client_fault E "s3", client_fault E "bedrock-runtime" with
  | Some e, _ =>
      module_level E w = (Raise e, record (boto3_client "s3") false w)
  | None, Some e =>
      module_level E w
      = (Raise e, record (boto3_client "bedrock-runtime") false
                    (record (boto3_client "s3") true w))
  | None, None =>
      ∃ G w1,
        module_level E w = (Ok G, w1)
        ∧ BUCKET_NAME G = getenv_BUCKET_NAME E
        ∧ fs w1 = fs w ∧ s3 w1 = s3 w
        ∧ new_calls w w1
          = (boto3_client "s3", true) :: (boto3_client "bedrock-runtime", true) ::
            match BedrockEmbeddings E "amazon.titan-embed-text-v1" with
            | Ok _ => [(BedrockEmbeddings_init "amazon.titan-embed-text-v1", true)]
            | Raise _ =>
                [(BedrockEmbeddings_init "amazon.titan-embed-text-v1", false);
                 (BedrockEmbeddings_init "cohere.embed-english-v3",
                  returned (BedrockEmbeddings E "cohere.embed-english-v3"))]
            end
  end.
Proof.
  unfold module_level, boto3_clients, new_client, module_body, try_except,
    new_BedrockEmbeddings, invoke, st, mbind, M_bind, mret, M_ret.
  destruct (client_fault E "s3"); [reflexivity |].
  destruct (client_fault E "bedrock-runtime"); [reflexivity |].
  destruct (BedrockEmbeddings E "amazon.titan-embed-text-v1");
    [eexists _, _; split; [reflexivity |]; lay_open_calls; repeat split |].
  destruct (BedrockEmbeddings E "cohere.embed-english-v3");
    eexists _, _; (split; [reflexivity |]); lay_open_calls; repeat split.
Qed.

(** Files of an earlier request survive the next one: when the two
    requests drew different identifiers, the second run of [main] leaves
    the copy of the first upload and the staging files of the first request
    exactly as the first run left them. *)
Theorem earlier_request_files_survive (G : Globals) (data1 data2 : bytes)
    (w : World) (path : string) :
  uuid4 E (uuids w) ≠ uuid4 E (S (uuids w)) →
  path ∈ [uuid4 E (uuids w) +:+ ".pdf";
          staging_path (uuid4 E (uuids w)) ".faiss";
          staging_path (uuid4 E (uuids w)) ".pkl"] →
  fs (snd (main E G (Some data2) (snd (main E G (Some data1) w)))) !! path
  = fs (snd (main E G (Some data1) w)) !! path.
Proof.
  intros Hdistinct Hpath.
  set (w1 := snd (main E G (Some data1) w)).
  assert (Hnext : uuids w1 = S (uuids w)) by apply main_uuids.
  apply main_frame; rewrite Hnext;
    rewrite !elem_of_cons, elem_of_nil in Hpath;
    destruct Hpath as [-> | [-> | [-> | []]]]; intros Heq.
  all: first
    [ apply append_inj_r in Heq; congruence
    | apply staging_path_inj in Heq; congruence
    | now apply staging_faiss_not_pdf in Heq
    | now apply staging_pkl_not_pdf in Heq
    | now apply staging_faiss_pkl in Heq
    | symmetry in Heq; now apply staging_faiss_not_pdf in Heq
    | symmetry in Heq; now apply staging_pkl_not_pdf in Heq
    | symmetry in Heq; now apply staging_faiss_pkl in Heq ].
Qed.

Lemma module_level_runs (w : World) :
  (∃ e w1, module_level E w = (Raise e, w1)
           ∧ Forall (fun c => builds_or_publishes c.1 = false) (new_calls w w1))
  ∨ (∃ w1 l1, module_level E w
              = (Ok (mkGlobals (getenv_BUCKET_NAME E) (first_initialised E model_priority)),
                 w1)
              ∧ calls w1 = calls w ++ l1
              ∧ uuids w1 = uuids w ∧ uploads w1 = uploads w
              ∧ Forall (fun c => builds_or_publishes c.1 = false) l1).
Proof.
  unfold module_level, boto3_clients, new_client, module_body, try_except,
    new_BedrockEmbeddings, invoke, st, mbind, M_bind, mret, M_ret.
  cbn [first_initialised model_priority].
  destruct (client_fault E "s3");
    [left; eexists _, _; split; [reflexivity |]; lay_open_calls; repeat constructor |].
  destruct (client_fault E "bedrock-runtime");
    [left; eexists _, _; split; [reflexivity |]; lay_open_calls; repeat constructor |].
  right.
  destruct (BedrockEmbeddings E "amazon.titan-embed-text-v1");
    [eexists _, _; split; [reflexivity |]; lay_open; rewrite <- ?app_assoc;
     repeat split; repeat constructor |].
  destruct (BedrockEmbeddings E "cohere.embed-english-v3");
    eexists _, _; (split; [reflexivity |]); lay_open; rewrite <- ?app_assoc;
    repeat split; repeat constructor.
Qed.

(** In a run of the whole script, the index is only ever built with the
    embedding client the module level selected, after a fall back to
    Cohere with the Cohere client, and only ever from the fragments of the
    upload: the documents [FAISS.from_documents] receives are the split, at
    1000 and 200, of the pages the loader found in the uploaded bytes, and
    there are at least two of them.  And whenever the clients are
    constructed, a model is selected, the copy of the upload is written and
    the loader's pages split into at least two fragments, the index is
    built from exactly these fragments with that client. *)
Theorem script_builds_with_the_selected_model (uploaded_file : option bytes)
    (w : World) :
  Forall (fun c =>
            match c.1 with
            | FAISS_from_documents_call documents emb =>
                first_initialised E model_priority = Some emb
                ∧ (2 ≤ length documents)%nat
                ∧ ∃ data pages,
                    uploaded_file = Some data
                    ∧ load_and_split E data = Ok pages
                    ∧ split_result pages 1000 200 = Ok documents
            | _ => True
            end)
    (new_calls w (snd (script E uploaded_file w)))
  ∧ (∀ data pages d0 d1 rest emb,
        uploaded_file = Some data →
        client_fault E "s3" = None →
        client_fault E "bedrock-runtime" = None →
        first_initialised E model_priority = Some emb →
        write_fault E (uuid4 E (uuids w) +:+ ".pdf") = None →
        load_and_split E data = Ok pages →
        split_result pages 1000 200 = Ok (d0 :: d1 :: rest) →
        (FAISS_from_documents_call (d0 :: d1 :: rest) emb,
         returned (FAISS_from_documents E (d0 :: d1 :: rest) emb))
        ∈ new_calls w (snd (script E uploaded_file w))).
Proof.
  unfold script.
  set (G := mkGlobals (getenv_BUCKET_NAME E) (first_initialised E model_priority)).
  assert (HG : bedrock_embeddings G = first_initialised E model_priority)
    by reflexivity.
  assert (Hmain : ∀ w1,
            ∃ l2, calls (snd (main E G uploaded_file w1)) = calls w1 ++ l2
                  ∧ Forall (fun c =>
                       match c.1 with
                       | FAISS_from_documents_call documents emb =>
                           bedrock_embeddings G = Some emb
                           ∧ (2 ≤ length documents)%nat
                           ∧ ∃ data pages,
                               uploaded_file = Some data
                               ∧ load_and_split E data = Ok pages
                               ∧ split_result pages 1000 200 = Ok documents
                       | _ => True
                       end) l2
                  ∧ (∀ data pages d0 d1 rest emb,
                        uploaded_file = Some data →
                        bedrock_embeddings G = Some emb →
                        write_fault E (uuid4 E (uuids w1) +:+ ".pdf") = None →
                        load_and_split E data = Ok pages →
                        split_result pages 1000 200 = Ok (d0 :: d1 :: rest) →
                        (FAISS_from_documents_call (d0 :: d1 :: rest) emb,
                         returned (FAISS_from_documents E (d0 :: d1 :: rest) emb))
                        ∈ l2)).
  { clearbody G. intros w1. destruct uploaded_file as [data|].
    2:{ exists []. split; [now rewrite app_nil_r |]. split; [constructor |].
        intros; discriminate. }
    destruct (main_runs E G data w1) as (w' & Heq & Hrun). rewrite Heq. cbn [snd].
    destruct Hrun as [ ? Hkept | ? Hkept Hload | pages e Hkept Hload Hsplit
                     | pages Hkept Hload Hsplit | pages d Hkept Hload Hsplit
                     | pages d0 d1 rest result w' Hkept Hload Hsplit Hcvs].
    6:{ assert (Hdocs : (2 ≤ length (d0 :: d1 :: rest))%nat) by (simpl; lia).
        destruct Hcvs as [Hemb | emb e Hemb Hbuild | emb vs e Hemb Hbuild
                         | emb vs e Hemb Hbuild | emb vs Hemb Hbuild
                         | emb vs b e Hemb Hbuild | emb vs b e Hemb Hbuild
                         | emb vs b Hemb Hbuild];
          lay_open; rewrite <- ?app_assoc;
          eexists; (split; [reflexivity |]);
          (split;
           [repeat (apply List.Forall_cons;
                    [cbn [fst];
                     first [exact I
                           | split; [assumption
                                    | split; [exact Hdocs
                                             | exists data, pages; repeat split;
                                               assumption]]]
                    |]);
            apply List.Forall_nil |]);
          intros data' pages' d0' d1' rest' emb' Hdata Hemb' _ Hload' Hsplit';
          injection Hdata as <-;
          rewrite Hload in Hload'; injection Hload' as <-;
          rewrite Hsplit in Hsplit'; injection Hsplit' as <- <- <-;
          try congruence;
          (assert (emb' = emb) as -> by congruence);
          rewrite Hbuild; cbn [app]; rewrite !elem_of_cons; tauto. }
    all: lay_open; rewrite <- ?app_assoc; eexists; (split; [reflexivity |]);
      (split; [repeat (apply List.Forall_cons; [exact I |]); apply List.Forall_nil |]);
      intros data' pages' d0' d1' rest' emb' Hdata Hemb' Hkept' Hload' Hsplit';
      injection Hdata as <-; try congruence;
      rewrite Hload in Hload'; try discriminate; injection Hload' as <-;
      rewrite Hsplit in Hsplit'; discriminate. }
  fold G in HG.
  destruct (module_level_runs w) as [(e & w1 & Hlevel & Hcalls) | (w1 & l1 & Hlevel & Hcalls1 & Hu & _ & Hl1)];
    fold G in Hlevel; unfold mbind, M_bind; rewrite Hlevel; cbn [snd].
  - split.
    + eapply Forall_impl; [exact Hcalls |]. intros [c ok]. cbn.
      destruct c; try discriminate; tauto.
    + intros data pages d0 d1 rest emb _ Hs3 Hbedrock. exfalso.
      revert Hlevel.
      unfold module_level, boto3_clients, new_client, invoke, mbind, M_bind.
      rewrite Hs3, Hbedrock. cbn. destruct (module_body E _) as [[G'|e'] w'] eqn:Hbody.
      * discriminate.
      * intros _. revert Hbody.
        unfold module_body, try_except, new_BedrockEmbeddings, invoke, st,
          mbind, M_bind, mret, M_ret.
        destruct (BedrockEmbeddings E "amazon.titan-embed-text-v1"); [discriminate |].
        destruct (BedrockEmbeddings E "cohere.embed-english-v3"); discriminate.
  - destruct (Hmain w1) as (l2 & Hcalls2 & Hl2 & Hmade).
    unfold new_calls. rewrite Hcalls2, Hcalls1, <- app_assoc, drop_app_length.
    split.
    + apply Forall_app. split.
      * eapply Forall_impl; [exact Hl1 |]. intros [c ok]. cbn.
        destruct c; try discriminate; tauto.
      * rewrite <- HG. exact Hl2.
    + intros data pages d0 d1 rest emb Hdata _ _ Hemb Hkept Hload Hsplit.
      apply elem_of_app. right.
      eapply Hmade; try eassumption.
      rewrite Hu. exact Hkept.
Qed.

End Runs.

Section RunsExercised.
Import langchain admin.

Lemma fewer_than_two_fragments_are_never_indexed_witness :
  ∃ w', main (exercise true one_fragment None) ready (Some [Byte.x25]) empty_world
        = (Ok (), w')
        ∧ last (ui w') = Some (st_error "Error processing file: list index out of range")
        ∧ Forall (fun c => builds_or_publishes c.1 = false) (new_calls empty_world w')
        ∧ s3 w' = s3 empty_world
        ∧ fs w' = <[uuid4 (exercise true one_fragment None) (uuids empty_world) +:+ ".pdf"
                    := [Byte.x25]]> (fs empty_world).
Proof.
  apply (fewer_than_two_fragments_are_never_indexed (exercise true one_fragment None)
           ready [Byte.x25] empty_world one_fragment one_fragment);
    [reflexivity | reflexivity | reflexivity | simpl; lia].
Defined.

Lemma main_publishes_the_index_witness :
  ∃ w', main (exercise true two_fragments None) ready (Some [Byte.x25]) empty_world
        = (Ok (), w')
        ∧ last (ui w') = Some (st_write "yey!! PDF processed successfully")
        ∧ s3 w' = <[("bucket", "my_faiss.pkl") := [Byte.x02; Byte.x02]]>
                    (<[("bucket", "my_faiss.faiss") := [Byte.x01; Byte.x01]]>
                       (s3 empty_world))
        ∧ fs w' = <[staging_path "request-0" ".pkl" := [Byte.x02; Byte.x02]]>
                    (<[staging_path "request-0" ".faiss" := [Byte.x01; Byte.x01]]>
                       (<["request-0" +:+ ".pdf" := [Byte.x25]]> (fs empty_world))).
Proof.
  apply (main_publishes_the_index (exercise true two_fragments None) ready [Byte.x25]
           empty_world two_fragments (mkDocument "first page" [])
           (mkDocument "second page" []) []
           (mkEmbeddings "amazon.titan-embed-text-v1")
           (mkVectorStore [Byte.x01; Byte.x01] [Byte.x02; Byte.x02]) "bucket");
    reflexivity.
Defined.

Lemma earlier_request_files_survive_witness :
  fs (snd (main (exercise true two_fragments None) ready (Some [Byte.x26])
             (snd (main (exercise true two_fragments None) ready (Some [Byte.x25])
                     empty_world))))
    !! (uuid4 (exercise true two_fragments None) (uuids empty_world) +:+ ".pdf")
  = fs (snd (main (exercise true two_fragments None) ready (Some [Byte.x25])
               empty_world))
      !! (uuid4 (exercise true two_fragments None) (uuids empty_world) +:+ ".pdf").
Proof.
  apply (earlier_request_files_survive (exercise true two_fragments None) ready
           [Byte.x25] [Byte.x26] empty_world).
  - vm_compute. discriminate.
  - apply elem_of_cons. left. reflexivity.
Defined.

Lemma script_builds_with_the_selected_model_witness :
  (FAISS_from_documents_call two_fragments (mkEmbeddings "cohere.embed-english-v3"),
   true)
  ∈ new_calls empty_world
      (snd (script (exercise_fallback two_fragments) (Some [Byte.x25]) empty_world)).
Proof.
  apply (proj2 (script_builds_with_the_selected_model (exercise_fallback two_fragments)
                  (Some [Byte.x25]) empty_world)
           [Byte.x25] two_fragments (mkDocument "first page" [])
           (mkDocument "second page" []) []
           (mkEmbeddings "cohere.embed-english-v3"));
    reflexivity.
Defined.

End RunsExercised.

(** ** Further properties of the splitter *)

Section Fragments.
Import langchain admin.
Variable sp : TextSplitter.

Lemma join_docs_not_empty (docs : list string) (separator : string) :
  Forall (fun s => s ≠ "") (option_list (_join_docs sp docs separator)).
Proof.
  unfold _join_docs.
  destruct (String.eqb_spec
              (if _strip_whitespace sp then strip (String.concat separator docs)
               else String.concat separator docs) "") as [| Hne]; simpl.
  - constructor.
  - constructor; [exact Hne | constructor].
Qed.

Lemma merge_loop_not_empty (separator : string) (splits : list string) :
  ∀ docs cd total out,
    Forall (fun s => s ≠ "") docs →
    merge_loop sp separator splits docs cd total = Ok out →
    Forall (fun s => s ≠ "") out.
Proof.
  induction splits as [|d splits IH]; intros docs cd total out Hdocs Hout.
  - injection Hout as <-. apply Forall_app. split; [exact Hdocs |].
    apply join_docs_not_empty.
  - cbn [merge_loop] in Hout.
    destruct (total + len d + (if 0 <? Z.of_nat (length cd) then len separator else 0)
              >? _chunk_size sp).
    + destruct (0 <? Z.of_nat (length cd)).
      * destruct (pop_front sp (len separator) (len d) cd total) as [[cd' total']|e];
          simpl in Hout; [| discriminate].
        eapply IH; [| exact Hout].
        apply Forall_app. split; [exact Hdocs | apply join_docs_not_empty].
      * simpl in Hout. eapply IH; [exact Hdocs | exact Hout].
    + simpl in Hout. eapply IH; [exact Hdocs | exact Hout].
Qed.

Lemma flush_not_empty (separator : string) (fc gs out : list string) :
  Forall (fun s => s ≠ "") fc →
  flush sp separator fc gs = Ok out →
  Forall (fun s => s ≠ "") out.
Proof.
  intros Hfc Hout. unfold flush in Hout. destruct gs as [|g gs].
  - now injection Hout as <-.
  - unfold _merge_splits in Hout.
    destruct (merge_loop sp separator (g :: gs) [] [] 0) as [merged|e] eqn:Hmerge;
      simpl in Hout; [| discriminate].
    injection Hout as <-. apply Forall_app. split; [exact Hfc |].
    eapply merge_loop_not_empty; [| exact Hmerge]. constructor.
Qed.

Lemma chunks_loop_not_empty (separator : string)
    (recur : option (string → result (list string))) (splits : list string) :
  (∀ r s out, recur = Some r → r s = Ok out → Forall (fun s => s ≠ "") out) →
  Forall (fun s => s ≠ "") splits →
  ∀ fc gs out,
    Forall (fun s => s ≠ "") fc →
    chunks_loop sp separator recur splits fc gs = Ok out →
    Forall (fun s => s ≠ "") out.
Proof.
  intros Hrecur. induction splits as [|s splits IH]; intros Hsplits fc gs out Hfc Hout.
  - simpl in Hout. eapply flush_not_empty; eassumption.
  - apply Forall_cons in Hsplits as [Hs Hsplits].
    cbn [chunks_loop] in Hout. destruct (len s <? _chunk_size sp).
    + eapply IH; eassumption.
    + destruct (flush sp separator fc gs) as [fc1|e] eqn:Hflush;
        simpl in Hout; [| discriminate].
      assert (Hfc1 : Forall (fun s => s ≠ "") fc1)
        by (eapply flush_not_empty; eassumption).
      destruct recur as [r|].
      * destruct (r s) as [other|e] eqn:Hr; simpl in Hout; [| discriminate].
        eapply IH; [exact Hsplits | | exact Hout].
        apply Forall_app. split; [exact Hfc1 |]. eapply Hrecur; [reflexivity | exact Hr].
      * eapply IH; [exact Hsplits | | exact Hout].
        apply Forall_app. split; [exact Hfc1 |]. constructor; [exact Hs | constructor].
Qed.

Lemma regex_splits_not_empty (text separator : string) (keep : bool) :
  Forall (fun s => s ≠ "") (_split_text_with_regex text separator keep).
Proof.
  unfold _split_text_with_regex. apply Forall_forall. intros s Hs.
  now apply list_elem_of_filter in Hs as [Hs _].
Qed.

Lemma split_with_not_empty (separator : string)
    (recur : option (string → result (list string))) (text : string)
    (out : list string) :
  (∀ r s out, recur = Some r → r s = Ok out → Forall (fun s => s ≠ "") out) →
  split_with sp separator recur text = Ok out →
  Forall (fun s => s ≠ "") out.
Proof.
  intros Hrecur Hout. unfold split_with in Hout.
  eapply chunks_loop_not_empty; [exact Hrecur | | | exact Hout].
  - apply regex_splits_not_empty.
  - constructor.
Qed.

Lemma _split_text_not_empty (separators : list string) (last_sep : string) :
  ∀ text out,
    _split_text sp separators last_sep text = Ok out →
    Forall (fun s => s ≠ "") out.
Proof.
  induction separators as [|_s rest IH]; intros text out Hout.
  - simpl in Hout. eapply split_with_not_empty; [| exact Hout]. discriminate.
  - cbn [_split_text] in Hout. destruct (String.eqb _s "").
    + eapply split_with_not_empty; [| exact Hout]. discriminate.
    + destruct (occurs _s text).
      * eapply split_with_not_empty; [| exact Hout].
        intros r s out' Hr Hs. destruct rest; [discriminate |].
        injection Hr as <-. eapply IH. exact Hs.
      * eapply IH. exact Hout.
Qed.

Lemma split_documents_not_empty (pages docs : list Document) :
  split_documents sp pages = Ok docs →
  Forall (fun d => page_content d ≠ "") docs.
Proof.
  revert docs. induction pages as [|page pages IH]; intros docs Hdocs.
  - injection Hdocs as <-. constructor.
  - cbn [split_documents] in Hdocs.
    destruct (langchain.split_text sp (page_content page)) as [chunks|e] eqn:Hchunks;
      simpl in Hdocs; [| discriminate].
    destruct (split_documents sp pages) as [rest|e]; simpl in Hdocs; [| discriminate].
    injection Hdocs as <-. apply Forall_app. split; [| now apply IH].
    apply Forall_fmap. eapply _split_text_not_empty. exact Hchunks.
Qed.

(** Splitting a sequence of pages is splitting each page on its own and
    putting the results one after the other; the fragments of a page carry
    its metadata. *)
Lemma split_documents_page_by_page (pages docs : list Document) :
  split_documents sp pages = Ok docs →
  ∃ per_page : list (list Document),
    docs = concat per_page
    ∧ Forall2 (fun page fragments =>
                 split_documents sp [page] = Ok fragments
                 ∧ Forall (fun d => metadata d = metadata page) fragments)
        pages per_page.
Proof.
  revert docs. induction pages as [|page pages IH]; intros docs Hdocs.
  - injection Hdocs as <-. exists []. split; [reflexivity | constructor].
  - cbn [split_documents] in Hdocs.
    destruct (langchain.split_text sp (page_content page)) as [chunks|e] eqn:Hchunks;
      simpl in Hdocs; [| discriminate].
    destruct (split_documents sp pages) as [rest|e]; simpl in Hdocs; [| discriminate].
    injection Hdocs as <-.
    destruct (IH rest eq_refl) as (per_page & -> & Hpages).
    exists (map (fun chunk => mkDocument chunk (metadata page)) chunks :: per_page).
    split; [reflexivity |].
    constructor; [| exact Hpages].
    split; [cbn [split_documents]; rewrite Hchunks; simpl; now rewrite app_nil_r |].
    apply Forall_fmap. apply Forall_forall. reflexivity.
Qed.

End Fragments.

Section SplitTextFurther.
Import langchain admin.

Lemma split_text_returns (pages : list Document) (chunk_size overlap : Z)
    (w w' : World) (docs : list Document) :
  split_text pages chunk_size overlap w = (Ok docs, w') →
  ∃ sp, RecursiveCharacterTextSplitter chunk_size overlap = Ok sp
        ∧ split_documents sp pages = Ok docs.
Proof.
  unfold split_text, eval. intros Heq. injection Heq as Heq _.
  destruct (RecursiveCharacterTextSplitter chunk_size overlap) as [sp|e];
    simpl in Heq; [| discriminate].
  exists sp. split; [reflexivity | exact Heq].
Qed.

(** No fragment is empty: whatever the pages and the configuration, a
    fragment that [split_text] returns has at least one character, so the
    embedder is never handed an empty text. *)
Theorem split_text_fragments_are_not_empty (pages : list Document)
    (chunk_size overlap : Z) (w w' : World) (docs : list Document) :
  split_text pages chunk_size overlap w = (Ok docs, w') →
  Forall (fun d => page_content d ≠ "") docs.
Proof.
  intros Hret. apply split_text_returns in Hret as (sp & _ & Hdocs).
  eapply split_documents_not_empty. exact Hdocs.
Qed.

(** Fragments keep the order of the pages and the metadata of their page:
    what [split_text] returns for a sequence of pages is what it returns
    for the first page alone, followed by what it returns for the second
    page alone, and so on, and every fragment of a page carries the
    metadata of that page. *)
Theorem split_text_keeps_page_order_and_metadata (pages : list Document)
    (chunk_size overlap : Z) (w w' : World) (docs : list Document) :
  split_text pages chunk_size overlap w = (Ok docs, w') →
  ∃ per_page : list (list Document),
    docs = concat per_page
    ∧ Forall2 (fun page fragments =>
                 split_text [page] chunk_size overlap w = (Ok fragments, w)
                 ∧ Forall (fun d => metadata d = metadata page) fragments)
        pages per_page.
Proof.
  intros Hret. apply split_text_returns in Hret as (sp & Hsp & Hdocs).
  apply split_documents_page_by_page in Hdocs as (per_page & -> & Hpages).
  exists per_page. split; [reflexivity |].
  eapply Forall2_impl; [exact Hpages |]. cbn beta.
  intros page fragments [Hpage Hmeta]. split; [| exact Hmeta].
  rewrite <- Hpage. unfold split_text, eval. rewrite Hsp. reflexivity.
Qed.

End SplitTextFurther.

(** ** Pages shorter than the chunk size *)

Lemma str_app_nil_r (s : string) : s +:+ "" = s.
Proof.
  induction s as [|c s IH]; [reflexivity |].
  change (String c (s +:+ "") = String c s). now rewrite IH.
Qed.

Lemma str_app_assoc (a b c : string) : (a +:+ b) +:+ c = a +:+ (b +:+ c).
Proof.
  induction a as [|x a IH]; [reflexivity |].
  change (String x ((a +:+ b) +:+ c) = String x (a +:+ (b +:+ c))). now rewrite IH.
Qed.

Lemma concat_empty_cons (x : string) (xs : list string) :
  String.concat "" (x :: xs) = x +:+ String.concat "" xs.
Proof.
  destruct xs as [|y xs]; [| reflexivity].
  change (String.concat "" [x]) with x. change (String.concat "" []) with "".
  symmetry. apply str_app_nil_r.
Qed.

Lemma concat_empty_chars (s : string) : String.concat "" (chars s) = s.
Proof.
  induction s as [|c s IH]; [reflexivity |].
  cbn [chars]. rewrite concat_empty_cons, IH. reflexivity.
Qed.

Lemma concat_empty_filter (l : list string) :
  String.concat "" (filter (fun s => s ≠ "") l) = String.concat "" l.
Proof.
  induction l as [|x l IH]; [reflexivity |].
  rewrite filter_cons, concat_empty_cons. destruct (decide (x ≠ "")) as [Hx | Hx].
  - now rewrite concat_empty_cons, IH.
  - apply dec_stable in Hx. subst x. exact IH.
Qed.

Lemma prefix_split (t s : string) :
  String.prefix t s = true → ∃ s2, s = t +:+ s2.
Proof.
  revert s. induction t as [|a t IH]; intros s Hpre.
  - exists s. reflexivity.
  - destruct s as [|b s]; simpl in Hpre; [discriminate |].
    destruct (ascii_dec a b) as [-> |]; [| discriminate].
    destruct (IH s Hpre) as (s2 & ->). exists s2. reflexivity.
Qed.

Lemma pieces_skip (sep t s2 cur : string) :
  pieces sep (String.length t) cur (t +:+ s2) = pieces sep 0 cur s2.
Proof. induction t as [|c t IH]; simpl; [reflexivity | exact IH]. Qed.

(** Splitting at a separator loses nothing: the pieces, each but the first
    with the separator in front, make up the text again. *)
Lemma pieces_rejoin (sep : string) (n : nat) :
  sep ≠ "" →
  ∀ s cur, (String.length s <= n)%nat →
    ∃ p0 ps, pieces sep 0 cur s = p0 :: ps
             ∧ p0 +:+ String.concat "" (map (fun p => sep +:+ p) ps) = cur +:+ s.
Proof.
  intros Hsep. induction n as [|n IH]; intros s cur Hlen.
  - destruct s; [| simpl in Hlen; lia].
    exists cur, []. split; reflexivity.
  - destruct s as [|c s']; [exists cur, []; split; reflexivity |].
    cbn [pieces]. destruct (String.prefix sep (String c s')) eqn:Hpre.
    + destruct sep as [|c0 t]; [congruence |].
      simpl in Hpre. destruct (ascii_dec c0 c) as [-> |]; [| discriminate].
      destruct (prefix_split t s' Hpre) as (s2 & ->).
      replace (String.length (String c t) - 1)%nat with (String.length t)
        by (simpl; lia).
      rewrite pieces_skip.
      destruct (IH s2 "") as (p0 & ps & Heq & Hjoin).
      { simpl in Hlen. rewrite length_append in Hlen. lia. }
      rewrite Heq. exists cur, (p0 :: ps). split; [reflexivity |].
      cbn [map]. rewrite concat_empty_cons, str_app_assoc, Hjoin. reflexivity.
    + destruct (IH s' (cur +:+ String c "")) as (p0 & ps & Heq & Hjoin).
      { simpl in Hlen. lia. }
      exists p0, ps. split; [exact Heq |].
      rewrite Hjoin, str_app_assoc. reflexivity.
Qed.

Section ShortPages.
Import langchain admin.

Lemma regex_splits_rejoin (text separator : string) :
  String.concat "" (_split_text_with_regex text separator true) = text.
Proof.
  unfold _split_text_with_regex. rewrite concat_empty_filter.
  destruct (String.eqb_spec separator "") as [-> | Hsep].
  - apply concat_empty_chars.
  - destruct (pieces_rejoin separator (String.length text) Hsep text "")
      as (p0 & ps & Heq & Hjoin); [lia |].
    rewrite Heq, concat_empty_cons. exact Hjoin.
Qed.

Lemma len_le_total_len (s : string) (l : list string) :
  s ∈ l → len s ≤ total_len l.
Proof.
  induction l as [|x l IH]; intros Hin; [now apply elem_of_nil in Hin |].
  apply elem_of_cons in Hin as [-> | Hin]; simpl.
  - pose proof (total_len_nonneg l). lia.
  - pose proof (len_nonneg x). specialize (IH Hin). lia.
Qed.

Variable sp : TextSplitter.
Hypothesis Hkeep : _keep_separator sp = true.

Lemma merge_loop_fits (splits : list string) :
  ∀ docs cd,
    total_len cd + total_len splits ≤ _chunk_size sp →
    merge_loop sp "" splits docs cd (total_len cd)
    = Ok (docs ++ option_list (_join_docs sp (cd ++ splits) "")).
Proof.
  induction splits as [|d splits IH]; intros docs cd Hfit.
  - simpl. now rewrite app_nil_r.
  - cbn [merge_loop]. change (len "") with 0.
    pose proof (total_len_nonneg splits) as Hnn.
    replace (total_len cd + len d + (if 0 <? Z.of_nat (length cd) then 0 else 0)
             >? _chunk_size sp) with false.
    2:{ symmetry. apply gtb_false. simpl in Hfit. destruct (0 <? _); lia. }
    simpl.
    replace (total_len cd + (len d + (if 1 <? Z.of_nat (length (cd ++ [d])) then 0 else 0)))
      with (total_len (cd ++ [d])).
    2:{ rewrite total_len_app. simpl. destruct (1 <? _); lia. }
    rewrite IH.
    + now rewrite <- app_assoc.
    + rewrite total_len_app. simpl in *. lia.
Qed.

Lemma chunks_loop_all_small (separator : string)
    (recur : option (string → result (list string))) (splits : list string) :
  Forall (fun s => len s < _chunk_size sp) splits →
  ∀ fc gs, chunks_loop sp separator recur splits fc gs
           = flush sp separator fc (gs ++ splits).
Proof.
  induction splits as [|s splits IH]; intros Hsmall fc gs.
  - simpl. now rewrite app_nil_r.
  - apply Forall_cons in Hsmall as [Hs Hsmall].
    cbn [chunks_loop]. apply Z.ltb_lt in Hs. rewrite Hs, IH by exact Hsmall.
    now rewrite <- app_assoc.
Qed.

(** A text shorter than the chunk size is not cut: whatever separator is
    chosen, the pieces are put together again into one chunk. *)
Lemma split_with_short (separator : string)
    (recur : option (string → result (list string))) (text : string) :
  len text < _chunk_size sp →
  split_with sp separator recur text = Ok (option_list (_join_docs sp [text] "")).
Proof.
  intros Hshort. unfold split_with. rewrite Hkeep.
  pose proof (regex_splits_rejoin text separator) as Hjoin.
  set (splits := _split_text_with_regex text separator true) in *.
  assert (Htotal : total_len splits = len text)
    by (rewrite <- concat_empty_len, Hjoin; reflexivity).
  rewrite chunks_loop_all_small.
  2:{ apply Forall_forall. intros s Hs. apply len_le_total_len in Hs. lia. }
  cbn [app]. unfold flush, _merge_splits.
  assert (Hsame : _join_docs sp splits "" = _join_docs sp [text] "").
  { unfold _join_docs. rewrite Hjoin. reflexivity. }
  destruct splits as [|s splits'] eqn:Hsplits.
  - rewrite <- Hsame. unfold _join_docs. simpl.
    destruct (_strip_whitespace sp); reflexivity.
  - change 0 with (total_len []) at 1.
    rewrite merge_loop_fits by (simpl in *; lia).
    simpl. now rewrite Hsame.
Qed.

Lemma _split_text_short (separators : list string) (last_sep text : string) :
  len text < _chunk_size sp →
  _split_text sp separators last_sep text = Ok (option_list (_join_docs sp [text] "")).
Proof.
  intros Hshort. induction separators as [|_s rest IH].
  - now apply split_with_short.
  - cbn [_split_text]. destruct (String.eqb _s ""); [now apply split_with_short |].
    destruct (occurs _s text); [now apply split_with_short | exact IH].
Qed.

End ShortPages.

Section ShortPagesInMain.
Import langchain admin.

Lemma split_result_short (pages : list Document) (chunk_size overlap : Z) :
  overlap ≤ chunk_size →
  Forall (fun page => len (page_content page) < chunk_size) pages →
  split_result pages chunk_size overlap = Ok (flat_map whole_page pages).
Proof.
  intros Hconf Hshort.
  unfold split_result, split_text, eval, RecursiveCharacterTextSplitter, TextSplitter_init.
  replace (overlap >? chunk_size) with false by (symmetry; apply gtb_false; lia).
  cbn [fst]. simpl mbind.
  induction pages as [|page pages IH]; [reflexivity |].
  apply Forall_cons in Hshort as [Hpage Hshort].
  cbn [split_documents flat_map]. unfold langchain.split_text.
  rewrite _split_text_short by (try reflexivity; exact Hpage).
  rewrite (IH Hshort). simpl. f_equal. f_equal.
  unfold whole_page, _join_docs. cbn [String.concat _strip_whitespace].
  destruct (String.eqb (strip (page_content page)) ""); reflexivity.
Qed.

(** Pages shorter than the chunk size are not cut: each becomes exactly
    one fragment, its text without the surrounding white space and with
    the metadata of the page, and a blank page becomes none. *)
Theorem short_pages_are_not_cut (pages : list Document) (chunk_size overlap : Z)
    (w : World) :
  overlap ≤ chunk_size →
  Forall (fun page => len (page_content page) < chunk_size) pages →
  split_text pages chunk_size overlap w = (Ok (flat_map whole_page pages), w).
Proof.
  intros Hconf Hshort.
  rewrite split_text_eval, split_result_short by assumption. reflexivity.
Qed.

Lemma short_pages_are_not_cut_witness :
  split_text [mkDocument "  a short page " [("page", "0")]; mkDocument "   " [("page", "1")]]
    1000 200 empty_world
  = (Ok (flat_map whole_page
           [mkDocument "  a short page " [("page", "0")]; mkDocument "   " [("page", "1")]]),
     empty_world).
Proof.
  apply short_pages_are_not_cut; [lia |].
  repeat constructor.
Defined.

Lemma split_result_bounds (pages docs : list Document) (chunk_size overlap : Z) :
  0 ≤ overlap → overlap < chunk_size →
  split_result pages chunk_size overlap = Ok docs →
  Forall (fun d => 0 < len (page_content d) ≤ chunk_size) docs.
Proof.
  intros H0 Hlt Hsplit.
  unfold split_result, split_text, eval, RecursiveCharacterTextSplitter,
    TextSplitter_init in Hsplit.
  replace (overlap >? chunk_size) with false in Hsplit
    by (symmetry; apply gtb_false; lia).
  cbn [fst] in Hsplit. simpl mbind in Hsplit.
  match type of Hsplit with
  | split_documents ?sp pages = _ =>
      destruct (split_documents_bound sp pages) as (docs' & Heq & Hbound);
        [simpl; lia | simpl; lia | reflexivity | reflexivity |];
      pose proof (split_documents_not_empty sp pages docs Hsplit) as Hne;
      rewrite Hsplit in Heq; injection Heq as <-
  end.
  simpl in Hbound. rewrite Forall_forall in *. intros d Hd.
  split; [| now apply Hbound].
  specialize (Hne d Hd). unfold len. destruct (page_content d); [congruence | simpl; lia].
Qed.

Variable E : Env.

(** What [main] hands to the index builder is always within bounds: every
    document passed to [FAISS.from_documents] has between 1 and 1000
    characters, so no empty and no oversized text reaches the embedding
    model. *)
Theorem index_builder_receives_bounded_fragments (G : Globals) (data : bytes)
    (w : World) :
  Forall (fun c =>
            match c.1 with
            | FAISS_from_documents_call documents _ =>
                Forall (fun d => 0 < len (page_content d) ≤ 1000) documents
            | _ => True
            end)
    (new_calls w (snd (main E G (Some data) w))).
Proof.
  destruct (main_runs E G data w) as (w' & Heq & Hrun). rewrite Heq. cbn [snd].
  destruct Hrun as [ | | | | | pages d0 d1 rest result w' ? ? Hsplit Hcvs].
  6:{ apply split_result_bounds in Hsplit; [| lia | lia].
      destruct Hcvs; lay_open_calls;
        repeat (apply List.Forall_cons; [cbn [fst]; first [exact I | exact Hsplit] |]);
        apply List.Forall_nil. }
  all: lay_open_calls; repeat (apply List.Forall_cons; [exact I |]); apply List.Forall_nil.
Qed.

(** A document of a single page with fewer than 1000 characters can never
    be indexed: the page is one fragment at most, so [main] stops at
    [splitted_docs[0]] or [splitted_docs[1]], reports the [IndexError] and
    publishes nothing. *)
Theorem single_short_page_is_never_indexed (G : Globals) (data : bytes)
    (w : World) (page : Document) :
  write_fault E (uuid4 E (uuids w) +:+ ".pdf") = None →
  load_and_split E data = Ok [page] →
  len (page_content page) < 1000 →
  ∃ w', main E G (Some data) w = (Ok (), w')
        ∧ last (ui w') = Some (st_error "Error processing file: list index out of range")
        ∧ Forall (fun c => builds_or_publishes c.1 = false) (new_calls w w')
        ∧ s3 w' = s3 w.
Proof.
  intros Hkeep Hload Hshort.
  assert (Hsplit : split_result [page] 1000 200 = Ok (whole_page page)).
  { rewrite split_result_short; [| lia | repeat constructor; exact Hshort].
    simpl. now rewrite app_nil_r. }
  assert (Hfew : (length (whole_page page) < 2)%nat).
  { unfold whole_page. destruct (String.eqb _ ""); simpl; lia. }
  destruct (main_runs E G data w) as (w' & Heq & Hrun).
  exists w'. split; [exact Heq |].
  destruct Hrun as [ | | pages' e ? Hload' Hsplit' | pages' ? Hload' Hsplit'
                   | pages' d ? Hload' Hsplit'
                   | pages' d0 d1 rest result w' ? Hload' Hsplit'];
    try congruence;
    rewrite Hload in Hload'; injection Hload' as <-;
    rewrite Hsplit in Hsplit'; try discriminate; injection Hsplit' as Hsplit';
    rewrite Hsplit' in Hfew; try (simpl in Hfew; lia).
  all: split; [unfold failed; cbn [ui render]; apply last_snoc |];
    lay_open_calls; split; [repeat constructor | reflexivity].
Qed.

End ShortPagesInMain.

Section SplitterExercised.
Import langchain admin.

Lemma split_text_fragments_are_not_empty_witness :
  Forall (fun d => page_content d ≠ "")
    [mkDocument "hello" []; mkDocument "world foo" []; mkDocument "bar baz" [];
     mkDocument "quux" []].
Proof.
  apply (split_text_fragments_are_not_empty
           [mkDocument "hello world foo bar baz quux" []; mkDocument "  " []] 10 3
           empty_world empty_world).
  reflexivity.
Defined.

Lemma split_text_keeps_page_order_and_metadata_witness :
  ∃ per_page : list (list Document),
    [mkDocument "hello" [("page", "0")]; mkDocument "world foo" [("page", "0")];
     mkDocument "bar" [("page", "2")]]
    = concat per_page
    ∧ Forall2 (fun page fragments =>
                 split_text [page] 10 3 empty_world = (Ok fragments, empty_world)
                 ∧ Forall (fun d => metadata d = metadata page) fragments)
        [mkDocument "hello world foo" [("page", "0")];
         mkDocument "  " [("page", "1")];
         mkDocument "bar" [("page", "2")]] per_page.
Proof.
  apply (split_text_keeps_page_order_and_metadata
           [mkDocument "hello world foo" [("page", "0")];
            mkDocument "  " [("page", "1")];
            mkDocument "bar" [("page", "2")]] 10 3 empty_world empty_world).
  reflexivity.
Defined.

Lemma single_short_page_is_never_indexed_witness :
  ∃ w', main (exercise true one_fragment None) ready (Some [Byte.x25]) empty_world
        = (Ok (), w')
        ∧ last (ui w') = Some (st_error "Error processing file: list index out of range")
        ∧ Forall (fun c => builds_or_publishes c.1 = false) (new_calls empty_world w')
        ∧ s3 w' = s3 empty_world.
Proof.
  apply (single_short_page_is_never_indexed (exercise true one_fragment None) ready
           [Byte.x25] empty_world (mkDocument "other document" []));
    [reflexivity | reflexivity | unfold len; simpl; lia].
Defined.

End SplitterExercised.

(** ** Fragments are excerpts of their page *)

Lemma excerpt_refl (s : string) : excerpt_of s s.
Proof. exists "", "". now rewrite str_app_nil_r. Qed.

Lemma excerpt_trans (a b c : string) :
  excerpt_of a b → excerpt_of b c → excerpt_of a c.
Proof.
  intros (p1 & q1 & ->) (p2 & q2 & ->).
  exists (p2 +:+ p1), (q1 +:+ q2). now rewrite !str_app_assoc.
Qed.

Lemma lstrip_suffix (s : string) : ∃ before, s = before +:+ lstrip s.
Proof.
  induction s as [|c s (before & IH)]; [now exists "" |].
  simpl. destruct (isspace c).
  - exists (String c before). change (String c s = String c (before +:+ lstrip s)).
    now rewrite <- IH.
  - now exists "".
Qed.

Lemma rstrip_prefix (s : string) : ∃ after, s = rstrip s +:+ after.
Proof.
  induction s as [|c s (after & IH)]; [now exists "" |].
  simpl. destruct (rstrip s) as [|c' r] eqn:Hr.
  - destruct (isspace c).
    + now exists (String c s).
    + exists s. reflexivity.
  - exists after. change (String c s = String c (String c' r +:+ after)).
    now rewrite <- IH.
Qed.

Lemma strip_excerpt (s : string) : excerpt_of (strip s) s.
Proof.
  unfold strip. destruct (lstrip_suffix s) as (before & Hs).
  destruct (rstrip_prefix (lstrip s)) as (after & Hl).
  exists before, after. now rewrite <- Hl.
Qed.

Lemma concat_empty_app (l1 l2 : list string) :
  String.concat "" (l1 ++ l2) = String.concat "" l1 +:+ String.concat "" l2.
Proof.
  induction l1 as [|x l1 IH]; [reflexivity |].
  change ((x :: l1) ++ l2) with (x :: (l1 ++ l2)).
  now rewrite !concat_empty_cons, IH, str_app_assoc.
Qed.

Lemma concat_infix_excerpt (l1 l2 l3 : list string) :
  excerpt_of (String.concat "" l2) (String.concat "" (l1 ++ l2 ++ l3)).
Proof.
  exists (String.concat "" l1), (String.concat "" l3).
  now rewrite !concat_empty_app.
Qed.

Section Excerpts.
Import langchain admin.
Variable sp : TextSplitter.
Hypothesis Hkeep : _keep_separator sp = true.

Lemma join_docs_excerpt (docs : list string) :
  Forall (fun c => excerpt_of c (String.concat "" docs))
    (option_list (_join_docs sp docs "")).
Proof.
  unfold _join_docs.
  destruct (String.eqb _ ""); simpl; [constructor |].
  constructor; [| constructor].
  destruct (_strip_whitespace sp); [apply strip_excerpt | apply excerpt_refl].
Qed.

Lemma pop_front_suffix (separator_len _len : Z) (cd : list string) :
  ∀ total cd' total',
    pop_front sp separator_len _len cd total = Ok (cd', total') →
    ∃ dropped, cd = dropped ++ cd'.
Proof.
  induction cd as [|d0 rest IH]; intros total cd' total' Hpop.
  - simpl in Hpop. destruct (_ || _); [discriminate |].
    injection Hpop as <- _. now exists [].
  - cbn [pop_front] in Hpop. destruct (_ || _).
    + apply IH in Hpop as (dropped & ->). now exists (d0 :: dropped).
    + injection Hpop as <- _. now exists [].
Qed.

Lemma merge_loop_excerpts (whole : string) (splits : list string) :
  ∀ docs cd total out before,
    Forall (fun c => excerpt_of c whole) docs →
    whole = String.concat "" (before ++ cd ++ splits) →
    merge_loop sp "" splits docs cd total = Ok out →
    Forall (fun c => excerpt_of c whole) out.
Proof.
  induction splits as [|d splits IH]; intros docs cd total out before Hdocs Hwhole Hout.
  - injection Hout as <-. apply Forall_app. split; [exact Hdocs |].
    eapply Forall_impl; [apply join_docs_excerpt |]. cbn beta. intros c Hc.
    eapply excerpt_trans; [exact Hc |]. rewrite Hwhole. apply concat_infix_excerpt.
  - cbn [merge_loop] in Hout.
    assert (Hnext : ∀ docs' cd' total' before',
               Forall (fun c => excerpt_of c whole) docs' →
               whole = String.concat "" (before' ++ (cd' ++ [d]) ++ splits) →
               merge_loop sp "" splits docs' (cd' ++ [d]) total' = Ok out →
               Forall (fun c => excerpt_of c whole) out)
      by (intros; eapply IH; eassumption).
    assert (Hhere : whole = String.concat "" (before ++ (cd ++ [d]) ++ splits))
      by (rewrite Hwhole, <- (app_assoc cd); reflexivity).
    destruct (total + len d + (if 0 <? Z.of_nat (length cd) then len "" else 0)
              >? _chunk_size sp).
    + destruct (0 <? Z.of_nat (length cd)).
      * destruct (pop_front sp (len "") (len d) cd total) as [[cd' total']|e] eqn:Hpop;
          simpl in Hout; [| discriminate].
        apply pop_front_suffix in Hpop as (dropped & ->).
        eapply (Hnext _ cd' _ (before ++ dropped)); [| | exact Hout].
        -- apply Forall_app. split; [exact Hdocs |].
           eapply Forall_impl; [apply join_docs_excerpt |]. cbn beta. intros c Hc.
           eapply excerpt_trans; [exact Hc |]. rewrite Hwhole.
           apply concat_infix_excerpt.
        -- rewrite Hwhole, <- !app_assoc. reflexivity.
      * simpl in Hout. eapply (Hnext _ cd _ before); eassumption.
    + simpl in Hout. eapply (Hnext _ cd _ before); eassumption.
Qed.

Lemma flush_excerpts (whole : string) (fc gs out before after : list string) :
  Forall (fun c => excerpt_of c whole) fc →
  whole = String.concat "" (before ++ gs ++ after) →
  flush sp "" fc gs = Ok out →
  Forall (fun c => excerpt_of c whole) out.
Proof.
  intros Hfc Hwhole Hout. unfold flush in Hout. destruct gs as [|g gs].
  - now injection Hout as <-.
  - unfold _merge_splits in Hout.
    destruct (merge_loop sp "" (g :: gs) [] [] 0) as [merged|e] eqn:Hmerge;
      simpl in Hout; [| discriminate].
    injection Hout as <-. apply Forall_app. split; [exact Hfc |].
    eapply Forall_impl.
    + eapply (merge_loop_excerpts (String.concat "" (g :: gs)) (g :: gs) [] [] 0 merged []);
        [constructor | reflexivity | exact Hmerge].
    + cbn beta. intros c Hc. eapply excerpt_trans; [exact Hc |].
      rewrite Hwhole. apply concat_infix_excerpt.
Qed.

Lemma chunks_loop_excerpts (whole : string)
    (recur : option (string → result (list string))) (splits : list string) :
  (∀ r s out, recur = Some r → r s = Ok out → Forall (fun c => excerpt_of c s) out) →
  ∀ fc gs out before,
    Forall (fun c => excerpt_of c whole) fc →
    whole = String.concat "" (before ++ gs ++ splits) →
    chunks_loop sp "" recur splits fc gs = Ok out →
    Forall (fun c => excerpt_of c whole) out.
Proof.
  intros Hrecur. induction splits as [|s splits IH];
    intros fc gs out before Hfc Hwhole Hout.
  - simpl in Hout. eapply flush_excerpts; eassumption.
  - cbn [chunks_loop] in Hout. destruct (len s <? _chunk_size sp).
    + eapply (IH _ _ _ before); [exact Hfc | | exact Hout].
      rewrite Hwhole, <- (app_assoc gs). reflexivity.
    + destruct (flush sp "" fc gs) as [fc1|e] eqn:Hflush; simpl in Hout; [| discriminate].
      assert (Hfc1 : Forall (fun c => excerpt_of c whole) fc1)
        by (eapply flush_excerpts; eassumption).
      assert (Hs : excerpt_of s whole).
      { rewrite Hwhole, (app_assoc before gs).
        change (s :: splits) with ([s] ++ splits).
        change s with (String.concat "" [s]) at 1. apply concat_infix_excerpt. }
      assert (Hrest : whole = String.concat "" ((before ++ gs ++ [s]) ++ [] ++ splits)).
      { rewrite Hwhole, <- !app_assoc. reflexivity. }
      destruct recur as [r|].
      * destruct (r s) as [other|e] eqn:Hr; simpl in Hout; [| discriminate].
        eapply (IH _ _ _ _ _ Hrest Hout).
      * eapply (IH _ _ _ _ _ Hrest Hout).
  Unshelve.
  -- apply Forall_app. split; [exact Hfc1 |].
     eapply Forall_impl; [eapply Hrecur; [reflexivity | exact Hr] |].
     cbn beta. intros c Hc. eapply excerpt_trans; eassumption.
  -- apply Forall_app. split; [exact Hfc1 |]. constructor; [exact Hs | constructor].
Qed.

End Excerpts.

Section ExcerptsOfPages.
Import langchain admin.
Variable sp : TextSplitter.
Hypothesis Hkeep : _keep_separator sp = true.

Lemma split_with_excerpts (separator : string)
    (recur : option (string → result (list string))) (text : string)
    (out : list string) :
  (∀ r s out, recur = Some r → r s = Ok out → Forall (fun c => excerpt_of c s) out) →
  split_with sp separator recur text = Ok out →
  Forall (fun c => excerpt_of c text) out.
Proof.
  intros Hrecur Hout. unfold split_with in Hout. rewrite Hkeep in Hout.
  eapply (chunks_loop_excerpts sp text recur _ Hrecur [] [] out []);
    [constructor | | exact Hout].
  cbn [app]. symmetry. apply regex_splits_rejoin.
Qed.

Lemma _split_text_excerpts (separators : list string) (last_sep : string) :
  ∀ text out,
    _split_text sp separators last_sep text = Ok out →
    Forall (fun c => excerpt_of c text) out.
Proof.
  induction separators as [|_s rest IH]; intros text out Hout.
  - simpl in Hout. eapply split_with_excerpts; [| exact Hout]. discriminate.
  - cbn [_split_text] in Hout. destruct (String.eqb _s "").
    + eapply split_with_excerpts; [| exact Hout]. discriminate.
    + destruct (occurs _s text).
      * eapply split_with_excerpts; [| exact Hout].
        intros r s out' Hr Hs. destruct rest; [discriminate |].
        injection Hr as <-. eapply IH. exact Hs.
      * eapply IH. exact Hout.
Qed.

Lemma split_documents_excerpts (pages docs : list Document) :
  split_documents sp pages = Ok docs →
  Forall (fun d => ∃ page, page ∈ pages
                           ∧ metadata d = metadata page
                           ∧ excerpt_of (page_content d) (page_content page)) docs.
Proof.
  revert docs. induction pages as [|page pages IH]; intros docs Hdocs.
  - injection Hdocs as <-. constructor.
  - cbn [split_documents] in Hdocs.
    destruct (langchain.split_text sp (page_content page)) as [chunks|e] eqn:Hchunks;
      simpl in Hdocs; [| discriminate].
    destruct (split_documents sp pages) as [rest|e]; simpl in Hdocs; [| discriminate].
    injection Hdocs as <-. apply Forall_app. split.
    + apply Forall_fmap. apply _split_text_excerpts in Hchunks.
      eapply Forall_impl; [exact Hchunks |]. cbn. intros c Hc.
      exists page. split; [apply elem_of_cons; now left |]. split; [reflexivity | exact Hc].
    + eapply Forall_impl; [exact (IH rest eq_refl) |]. cbn.
      intros d (page' & Hin & Hmeta & Hex). exists page'.
      split; [apply elem_of_cons; now right |]. split; assumption.
Qed.

End ExcerptsOfPages.

Section ExcerptsOfPagesInSplitText.
Import langchain admin.

(** The splitter invents nothing: every fragment is an excerpt of one of
    the pages, a run of consecutive characters of its text, and carries
    the metadata of that page. *)
Theorem split_text_fragments_are_excerpts (pages : list Document)
    (chunk_size overlap : Z) (w w' : World) (docs : list Document) :
  split_text pages chunk_size overlap w = (Ok docs, w') →
  Forall (fun d => ∃ page, page ∈ pages
                           ∧ metadata d = metadata page
                           ∧ excerpt_of (page_content d) (page_content page)) docs.
Proof.
  intros Hret. apply split_text_returns in Hret as (sp & Hsp & Hdocs).
  eapply split_documents_excerpts; [| exact Hdocs].
  unfold RecursiveCharacterTextSplitter, TextSplitter_init in Hsp.
  destruct (overlap >? chunk_size); [discriminate |]. now injection Hsp as <-.
Qed.

Lemma split_text_fragments_are_excerpts_witness :
  Forall (fun d => ∃ page,
            page ∈ [mkDocument "hello world foo bar baz quux" [("page", "0")]]
            ∧ metadata d = metadata page
            ∧ excerpt_of (page_content d) (page_content page))
    [mkDocument "hello" [("page", "0")]; mkDocument "world foo" [("page", "0")];
     mkDocument "bar baz" [("page", "0")]; mkDocument "quux" [("page", "0")]].
Proof.
  apply (split_text_fragments_are_excerpts
           [mkDocument "hello world foo bar baz quux" [("page", "0")]] 10 3
           empty_world empty_world).
  reflexivity.
Defined.

End ExcerptsOfPagesInSplitText.
